(** * PDPA Blur: the processing store, the page logic and the blur pipeline

    A shallow embedding of the repository's sources:
    - [frontend/stores/useProcessingStore.ts], the Pinia store of the
      current job;
    - the script block of the page component, which the sources carry in
      [frontend/eslint.config.mjs] after the lint configuration:
      [previewBlurPx], [displayProgress], [extractErrorMessage], [pollJob],
      [startProcessing] and the handling of the reference images.

    JavaScript values are modelled as data: numbers are IEEE 754 binary64
    values ([spec_float] with precision 53 and exponent bound 1024, the
    Standard Library's executable specification of floating point), strings
    are [string], objects are association lists of properties.

    The Python backend is not among the sources.  Its face registry and
    frame classifier are modelled from the specification in the module
    [Backend]; the README (section 8) names the same pieces:
    [face_registry] with its expiry, [_detect_and_update] with the
    [user_hits]/[user_misses] hysteresis and the running embedding, and
    [require_reference_match=True] in [fast] mode.

    The file has two parts: the definitions, then their properties. *)

From Stdlib Require Import ZArith QArith Qminmax Bool List String Sorted Lia.
From Stdlib Require Import Floats.SpecFloat.
From stdpp Require Import base option list strings gmap.
Import ListNotations.

Set Warnings "-register-all".
Local Open Scope string_scope.
Local Open Scope Z_scope.

(** ** JavaScript values *)

Module JS.

(** A value of TypeScript's [unknown]: what [JSON.parse] can produce, plus
    [undefined] and objects that are instances of [Error]. *)
Inductive JSValue : Type :=
| JSUndefined
| JSNull
| JSBoolean (b : bool)
| JSNumber (x : spec_float)
| JSString (s : string)
| JSArray (items : list JSValue)
| JSObject (isError : bool) (props : list (string * JSValue)).

(** [typeof v] *)
Definition typeof (v : JSValue) : string :=
  match v with
  | JSUndefined => "undefined"
  | JSNull => "object"
  | JSBoolean _ => "boolean"
  | JSNumber _ => "number"
  | JSString _ => "string"
  | JSArray _ => "object"
  | JSObject _ _ => "object"
  end.

(** [Number.isNaN] and [Number.isFinite]: no coercion, [false] on anything
    that is not a number. *)
Definition Number_isNaN (v : JSValue) : bool :=
  match v with
  | JSNumber S754_nan => true
  | _ => false
  end.

Definition Number_isFinite (v : JSValue) : bool :=
  match v with
  | JSNumber (S754_zero _) => true
  | JSNumber (S754_finite _ _ _) => true
  | _ => false
  end.

(** [ToBoolean]: the falsy values are [undefined], [null], [false], [0],
    [-0], [NaN] and the empty string. *)
Definition truthy (v : JSValue) : bool :=
  match v with
  | JSUndefined => false
  | JSNull => false
  | JSBoolean b => b
  | JSNumber (S754_zero _) => false
  | JSNumber S754_nan => false
  | JSNumber _ => true
  | JSString s => negb (String.eqb s "")
  | JSArray _ => true
  | JSObject _ _ => true
  end.

(** [a || b] *)
Definition js_or (a b : JSValue) : JSValue :=
  if truthy a then a else b.

(** Own-property lookup in an object literal. *)
Fixpoint assoc (k : string) (props : list (string * JSValue)) : option JSValue :=
  match props with
  | [] => None
  | (k', v) :: rest => if String.eqb k' k then Some v else assoc k rest
  end.

(** [v?.k] for the property names the page reads ([data], [detail],
    [message], [statusMessage], [msg]): [undefined] on [null] and
    [undefined] (optional chaining), on primitives and on arrays, which
    carry none of these names. *)
Definition get (v : JSValue) (k : string) : JSValue :=
  match v with
  | JSObject _ props => default JSUndefined (assoc k props)
  | _ => JSUndefined
  end.

(** [k in v], for [v] an object or an array. *)
Definition has (v : JSValue) (k : string) : bool :=
  match v with
  | JSObject _ props => bool_decide (is_Some (assoc k props))
  | _ => false
  end.

(** [v instanceof Error] *)
Definition instanceofError (v : JSValue) : bool :=
  match v with
  | JSObject isError _ => isError
  | _ => false
  end.

(** Arithmetic on binary64 numbers: [x * y] and [x + y] round to nearest,
    ties to even. *)
Definition mul (x y : spec_float) : spec_float := SFmul 53 1024 x y.
Definition add (x y : spec_float) : spec_float := SFadd 53 1024 x y.

(** The number an integer literal denotes. *)
Definition number_of_Z (z : Z) : spec_float := binary_normalize 53 1024 z 0 false.

(** The literal [2.2]: the binary64 value nearest to 11/5, which is
    4953959590107546 * 2^-51. *)
Definition lit_2_2 : spec_float := S754_finite false 4953959590107546 (-51).

(** [Math.round x] for a finite [x]: the integer nearest to [x], a tie going
    to the larger one, that is [floor (x + 1/2)] computed exactly.  (On
    [NaN] and the infinities [Math.round] returns its argument; both callers
    below reach it with finite numbers only, and the model answers 0 there.) *)
Definition Math_round (x : spec_float) : Z :=
  match x with
  | S754_finite s m e =>
      let n := cond_Zopp s (Z.pos m) in
      if 0 <=? e then n * 2 ^ e else (2 * n + 2 ^ (- e)) / 2 ^ (1 - e)
  | _ => 0
  end.

End JS.

(** ** The processing store ([stores/useProcessingStore.ts]) *)

Module Store.
Import JS.

(** [type JobState = 'pending' | 'running' | 'completed' | 'failed'] *)
Inductive JobState : Type := pending | running | completed | failed.

(** [interface ProcessingJob].  [progress] is declared a [number]; the store
    keeps whatever value the status response carried, and [displayProgress]
    re-checks it with [typeof], so the field holds a raw value here.  The
    optional fields [message?] and [downloadUrl?] are [None] when
    [undefined]. *)
Record ProcessingJob : Type := {
  jobId : string;
  state : JobState;
  progress : JSValue;
  message : option string;
  downloadUrl : option string
}.

(** [Partial<ProcessingJob>]: a key is either absent ([None]) or present
    with a value; for an optional field the value may itself be
    [undefined] ([Some None]). *)
Record PartialJob : Type := {
  p_jobId : option string;
  p_state : option JobState;
  p_progress : option JSValue;
  p_message : option (option string);
  p_downloadUrl : option (option string)
}.

(** [state: () => ({ currentJob: null as ProcessingJob | null })] *)
Record ProcessingStore : Type := { currentJob : option ProcessingJob }.

Definition initialStore : ProcessingStore := {| currentJob := None |}.

(** [{ ...job, ...partial }]: every key present in [partial] overrides the
    job's, every other key keeps its value. *)
Definition spread (job : ProcessingJob) (partial : PartialJob) : ProcessingJob :=
  {| jobId := default (jobId job) (p_jobId partial);
     state := default (state job) (p_state partial);
     progress := default (progress job) (p_progress partial);
     message := default (message job) (p_message partial);
     downloadUrl := default (downloadUrl job) (p_downloadUrl partial) |}.

Definition startJob (job : ProcessingJob) (st : ProcessingStore) : ProcessingStore :=
  {| currentJob := Some job |}.

Definition updateJob (partial : PartialJob) (st : ProcessingStore) : ProcessingStore :=
  match currentJob st with
  | None => st
  | Some job => {| currentJob := Some (spread job partial) |}
  end.

Definition clearJob (st : ProcessingStore) : ProcessingStore :=
  {| currentJob := None |}.

End Store.

(** ** The status response of [GET /jobs/{job_id}] ([interface JobStatusResponse]) *)

Module Status.
Import JS.

(** [message?] and [download_url?] are [None] when the response carries
    none ([undefined], or [null] in the JSON body: both are falsy where the
    page tests them). *)
Record JobStatusResponse : Type := {
  job_id : string;
  state : Store.JobState;
  progress : JSValue;
  message : option string;
  download_url : option string
}.

End Status.

(** ** The page script ([pages/index.vue]) *)

Module Page.
Import JS Store.

(** [const previewBlurPx = computed(() => Math.round(selectedBlur.value * 2.2 + 1))]
    [selectedBlur] is the value of the range input ([min="1" max="10"], whole
    steps), converted to a number by the multiplication. *)
Definition previewBlurPx (selectedBlur : Z) : Z :=
  Math_round (add (mul (number_of_Z selectedBlur) lit_2_2) (number_of_Z 1)).

(** The body of [displayProgress], on the value read from
    [jobStatus.value?.progress]. *)
Definition displayProgress_of (value : JSValue) : Z :=
  if negb (String.eqb (typeof value) "number") || Number_isNaN value
     || negb (Number_isFinite value)
  then 0
  else match value with
       | JSNumber x => Z.max 0 (Z.min 100 (Math_round x))
       | _ => 0
       end.

(** [jobStatus.value?.progress]: [undefined] when there is no current job. *)
Definition displayProgress (st : ProcessingStore) : Z :=
  displayProgress_of
    match currentJob st with
    | Some job => progress job
    | None => JSUndefined
    end.

Definition unknownErrorMessage : string := "เกิดข้อผิดพลาดไม่ทราบสาเหตุ".

(** The [if (detail) { ... }] block of [extractErrorMessage]: [Some v] when
    it returns [v], [None] when control falls through to the last line. *)
Definition detailMessage (detail : JSValue) : option JSValue :=
  if truthy detail then
    if String.eqb (typeof detail) "string" then Some detail
    else
      match detail with
      | JSArray (firstDetail :: _) =>
          if String.eqb (typeof firstDetail) "string" then Some firstDetail
          else if String.eqb (typeof firstDetail) "object"
                  && match firstDetail with JSNull => false | _ => true end
                  && has firstDetail "msg"
                  && String.eqb (typeof (get firstDetail "msg")) "string"
          then Some (get firstDetail "msg")
          else None
      | _ => None
      end
  else None.

Definition extractErrorMessage (error : JSValue) : JSValue :=
  if negb (truthy error) then JSString unknownErrorMessage
  else if String.eqb (typeof error) "string" then error
  else if instanceofError error && truthy (get error "message")
  then get error "message"
  else
    let maybe := error in
    let detail := get (get maybe "data") "detail" in
    match detailMessage detail with
    | Some r => r
    | None =>
        js_or (js_or (get maybe "message") (get maybe "statusMessage"))
              (JSString unknownErrorMessage)
    end.

(** The shapes [extractErrorMessage] relies on.  [ErrorPayload] declares
    [message] and [statusMessage] as strings: a value read from them is a
    string or is falsy. *)
Definition stringOrFalsy (v : JSValue) : bool :=
  String.eqb (typeof v) "string" || negb (truthy v).

Definition typedPayload (error : JSValue) : bool :=
  stringOrFalsy (get error "message") && stringOrFalsy (get error "statusMessage").

(** An array [detail] whose first element is the empty string, or an object
    whose [msg] is the empty string. *)
Definition blankFirstDetail (detail : JSValue) : bool :=
  match detail with
  | JSArray (JSString s :: _) => String.eqb s ""
  | JSArray (JSObject _ props :: _) =>
      match assoc "msg" props with
      | Some (JSString s) => String.eqb s ""
      | _ => false
      end
  | _ => false
  end.

(** *** Polling *)

(** How one status request ends: with a response, or with a thrown error. *)
Inductive FetchResult : Type :=
| fetched (status : Status.JobStatusResponse)
| threw (error : JSValue).

(** The promise [pollJob] returns: settled once, by the first [resolve] or
    [reject]. *)
Inductive Settled : Type :=
| resolved
| rejected (message : JSValue).

(** The reactive state [fetchStatus] works on.  [pollHandle] is [true] while
    an interval is set. *)
Record PageState : Type := {
  processingStore : ProcessingStore;
  statusMessage : string;
  errorMessage : JSValue;
  pollHandle : bool;
  promise : option Settled
}.

Definition with_store (f : ProcessingStore -> ProcessingStore) (pg : PageState) : PageState :=
  {| processingStore := f (processingStore pg);
     statusMessage := statusMessage pg;
     errorMessage := errorMessage pg;
     pollHandle := pollHandle pg;
     promise := promise pg |}.

Definition set_statusMessage (m : string) (pg : PageState) : PageState :=
  {| processingStore := processingStore pg;
     statusMessage := m;
     errorMessage := errorMessage pg;
     pollHandle := pollHandle pg;
     promise := promise pg |}.

Definition set_errorMessage (m : JSValue) (pg : PageState) : PageState :=
  {| processingStore := processingStore pg;
     statusMessage := statusMessage pg;
     errorMessage := m;
     pollHandle := pollHandle pg;
     promise := promise pg |}.

(** [resetPoller]: clears the interval, if one is set. *)
Definition resetPoller (pg : PageState) : PageState :=
  {| processingStore := processingStore pg;
     statusMessage := statusMessage pg;
     errorMessage := errorMessage pg;
     pollHandle := false;
     promise := promise pg |}.

(** [resolve()] and [reject(new Error(m))]: no effect on a settled promise. *)
Definition settle (outcome : Settled) (pg : PageState) : PageState :=
  {| processingStore := processingStore pg;
     statusMessage := statusMessage pg;
     errorMessage := errorMessage pg;
     pollHandle := pollHandle pg;
     promise := match promise pg with
                | None => Some outcome
                | Some o => Some o
                end |}.

Definition completedMessage : string :=
  "ประมวลผลเสร็จแล้ว! ดาวน์โหลดวิดีโอที่เบลอแล้วได้เลย".
Definition failedMessage : string := "เกิดข้อผิดพลาดระหว่างประมวลผล".

(** The partial [pollJob] passes to [updateJob]: the four keys are always
    present, [message] and [downloadUrl] possibly with [undefined]. *)
Definition statusPartial (status : Status.JobStatusResponse) : PartialJob :=
  {| p_jobId := None;
     p_state := Some (Status.state status);
     p_progress := Some (Status.progress status);
     p_message := Some (Status.message status);
     p_downloadUrl := Some (Status.download_url status) |}.

(** [fetchStatus], from the point where [await useApi(...)] returns or
    throws. *)
Definition fetchStatus (result : FetchResult) (pg : PageState) : PageState :=
  match result with
  | fetched status =>
      let pg := with_store (updateJob (statusPartial status)) pg in
      match Status.state status with
      | completed =>
          settle resolved (resetPoller (set_statusMessage completedMessage pg))
      | failed =>
          let m := match Status.message status with
                   | Some m => if String.eqb m "" then failedMessage else m
                   | None => failedMessage
                   end in
          settle (rejected (JSString m))
                 (resetPoller (set_errorMessage (JSString m) pg))
      | _ => pg
      end
  | threw error =>
      let pg := resetPoller pg in
      let message := extractErrorMessage error in
      settle (rejected message) (set_errorMessage message pg)
  end.

(** The page as [pollJob] sets it up: a fresh promise, and the interval of
    1500 ms set. *)
Definition startPolling (pg : PageState) : PageState :=
  {| processingStore := processingStore pg;
     statusMessage := statusMessage pg;
     errorMessage := errorMessage pg;
     pollHandle := true;
     promise := None |}.

(** What happens while [pollJob] is polling: the interval fires, which
    starts a status request; or the answer to the request that was started
    [k]-th arrives.  [setInterval(fetchStatus, 1500)] does not wait for the
    request before: several requests can be outstanding, and their answers
    arrive in any order. *)
Inductive Event : Type :=
| tick
| arrival (k : nat).

(** The page with its status requests: how many were started, and which of
    them have no answer yet. *)
Record Poller : Type := {
  page : PageState;
  started : nat;
  waiting : list nat
}.

Definition awaited (k : nat) (p : Poller) : bool := existsb (Nat.eqb k) (waiting p).

(** One event.  [answer k] is what the [k]-th request ends with.  The
    interval starts a request only while the handle is set.  An answer is
    handled by [fetchStatus] from its [await] on, whatever has happened
    since the request started: nothing there looks at the handle, at the
    promise or at the stored job. *)
Definition step (answer : nat -> FetchResult) (e : Event) (p : Poller) : Poller :=
  match e with
  | tick =>
      if pollHandle (page p)
      then {| page := page p;
              started := S (started p);
              waiting := waiting p ++ [started p] |}
      else p
  | arrival k =>
      if awaited k p
      then {| page := fetchStatus (answer k) (page p);
              started := started p;
              waiting := List.filter (fun j => negb (Nat.eqb k j)) (waiting p) |}
      else p
  end.

Fixpoint run (answer : nat -> FetchResult) (events : list Event) (p : Poller) : Poller :=
  match events with
  | [] => p
  | e :: rest => run answer rest (step answer e p)
  end.

(** [pollJob(jobId)] up to the point where it returns the promise:
    [fetchStatus()] has started the first request, and the interval is
    set. *)
Definition polling (pg : PageState) : Poller :=
  {| page := startPolling pg; started := 1; waiting := [0%nat] |}.

(** The page after the events of a [pollJob] run. *)
Definition pollJob (answer : nat -> FetchResult) (events : list Event) (pg : PageState)
    : PageState :=
  page (run answer events (polling pg)).

(** The requests whose answers are handled, in the order of arrival. *)
Fixpoint arrivals (answer : nat -> FetchResult) (events : list Event) (p : Poller)
    : list nat :=
  match events with
  | [] => []
  | e :: rest =>
      match e with
      | arrival k =>
          if awaited k p
          then k :: arrivals answer rest (step answer e p)
          else arrivals answer rest (step answer e p)
      | tick => arrivals answer rest (step answer e p)
      end
  end.

(** The answers of a list handled one after the other. *)
Definition handle (results : list FetchResult) (pg : PageState) : PageState :=
  fold_left (fun pg r => fetchStatus r pg) results pg.

(** The job [startProcessing] hands to [startJob] once the job is created:
    no [downloadUrl] key. *)
Definition preparingMessage : string := "กำลังเตรียมงานประมวลผล...".

Definition newJob (job_id : string) (state : JobState) : ProcessingJob :=
  {| jobId := job_id;
     state := state;
     progress := JSNumber (number_of_Z 0);
     message := Some preparingMessage;
     downloadUrl := None |}.

(** [v-if="jobStatus.downloadUrl"]: the download link is shown when the
    field is a non-empty string. *)
Definition showsDownload (job : ProcessingJob) : bool :=
  match downloadUrl job with
  | Some url => truthy (JSString url)
  | None => false
  end.



(** [downloadUrl] and [download_url] hold a location when they are a
    non-empty string. *)
Definition isPopulated (url : option string) : bool :=
  match url with
  | Some u => negb (String.eqb u "")
  | None => false
  end.

(** The job a handled response leaves in the store, over the job [job]. *)
Definition mirrored (job : ProcessingJob) (status : Status.JobStatusResponse) : ProcessingJob :=
  {| jobId := jobId job;
     state := Status.state status;
     progress := Status.progress status;
     message := Status.message status;
     downloadUrl := Status.download_url status |}.


(** A value is a non-empty string. *)
Definition nonEmptyString (v : JSValue) : Prop :=
  exists s, v = JSString s /\ s <> "".


(** The store after each handled answer, in the order of arrival. *)
Fixpoint observations (answer : nat -> FetchResult) (events : list Event) (p : Poller)
    : list ProcessingStore :=
  match events with
  | [] => []
  | e :: rest =>
      match e with
      | arrival k =>
          if awaited k p
          then processingStore (page (step answer e p))
               :: observations answer rest (step answer e p)
          else observations answer rest (step answer e p)
      | tick => observations answer rest (step answer e p)
      end
  end.



(** A backend's answers to the status requests, in the order of the
    requests. *)
Definition reports (status : nat -> Status.JobStatusResponse) (k : nat) : FetchResult :=
  fetched (status k).

End Page.

(** ** The backend services

    The Python backend ([backend/app/...]: the face registry, the video
    service and the job store) is not among the sources.  The definitions of
    this module are modelled from the specification's sections 3, 4.1 and
    4.2. *)

Module Backend.

(** Modelled from the spec: the error taxonomy of section 7. *)
Inductive Error : Type :=
| ValidationError
| NotFoundError
| ProcessingError (reason : string)
| ExpiredError.

Inductive Result (A : Type) : Type :=
| Ok (a : A)
| Err (e : Error).
Arguments Ok {A} a.
Arguments Err {A} e.

(** *** Face Registry (section 4.1) *)

Section Registry.

(** The external detection and embedding capability, on a reference image:
    the embeddings of the dominant faces it finds. *)
Context {Image Embedding : Type}.
Variable dominant_faces : Image -> list Embedding.

(** Modelled from the spec: [ReferenceProfile] of section 3, the reference
    embeddings of one user with a creation time and an expiry deadline
    (seconds). *)
Record ReferenceProfile : Type := {
  embeddings : list Embedding;
  created : nat;
  deadline : nat
}.

(** Modelled from the spec: an image is accepted when it yields exactly one
    dominant face, and skipped when it yields zero or more than one. *)
Definition accept (image : Image) : option Embedding :=
  match dominant_faces image with
  | [e] => Some e
  | _ => None
  end.

Definition accepted (images : list Image) : list Embedding := omap accept images.

(** The image shows exactly one dominant face. *)
Definition one_face (image : Image) : bool :=
  (length (dominant_faces image) =? 1)%nat.

Definition live (now : nat) (p : ReferenceProfile) : bool := (now <? deadline p)%nat.

(** Modelled from the spec: [register(user_id, images)] of section 4.1; the
    backend's face registry ([face_registry], with its services) is not
    among the sources.  It accumulates the accepted embeddings into the
    user's live profile, resets the deadline to [ttl] seconds from [now],
    and answers the number of embeddings added; it fails with
    [ValidationError] when no image was accepted. *)
Definition register (ttl now : nat) (user_id : string) (images : list Image)
    (registry : gmap string ReferenceProfile)
    : Result (nat * gmap string ReferenceProfile) :=
  match accepted images with
  | [] => Err ValidationError
  | new =>
      let old :=
        match registry !! user_id with
        | Some p => if live now p then Some p else None
        | None => None
        end in
      let profile :=
        {| embeddings := from_option embeddings [] old ++ new;
           created := from_option created now old;
           deadline := (now + ttl)%nat |} in
      Ok (length new, <[user_id := profile]> registry)
  end.

(** Modelled from the spec: [lookup(user_id)] and [expire(user_id)]. *)
Definition lookup (now : nat) (user_id : string)
    (registry : gmap string ReferenceProfile) : Result (list Embedding) :=
  match registry !! user_id with
  | Some p => if live now p then Ok (embeddings p) else Err NotFoundError
  | None => Err NotFoundError
  end.

Definition expire (user_id : string) (registry : gmap string ReferenceProfile)
    : gmap string ReferenceProfile :=
  delete user_id registry.

End Registry.

(** *** Frame Classifier (section 4.2) *)

(** Modelled from the spec: the processing modes of the mode policy table. *)
Inductive Mode : Type := fast | detailed.

(** A bounding box, in pixels. *)
Record Box : Type := { box_x : Z; box_y : Z; box_w : Z; box_h : Z }.

(** Modelled from the spec: the tunable constants of the classifier
    ([match_threshold], the stricter threshold of [fast] mode,
    [min_confidence_gap], [confirmation_threshold], [miss_tolerance]). *)
Record Config : Type := {
  match_threshold : Q;
  strict_threshold : Q;
  min_confidence_gap : Q;
  confirmation_threshold : nat;
  miss_tolerance : nat
}.

Inductive Label : Type := owner | other.

(** Modelled from the spec: [FrameDecision] of section 3.  Every detected
    box of the frame, in detection order, with its class; and the region
    carried forward from the track state while a confirmed owner is briefly
    unmatched (step 4). *)
Record FrameDecision : Type := {
  labelled : list (Box * Label);
  carried : option Box
}.

Definition empty_decision : FrameDecision := {| labelled := []; carried := None |}.



Definition Qltb (x y : Q) : bool := negb (Qle_bool y x).



(** The entry of least distance, the earliest one among equals, and the
    entries that remain. *)
Fixpoint extract_min {A : Type} (l : list (Q * A)) : option ((Q * A) * list (Q * A)) :=
  match l with
  | [] => None
  | x :: xs =>
      match extract_min xs with
      | None => Some (x, [])
      | Some (m, rest) =>
          if Qle_bool (fst x) (fst m) then Some (x, xs) else Some (m, x :: rest)
      end
  end.

Section Classifier.

(** The external face encoder: embeddings, their distance (smaller is more
    similar), and the weighted blend of the running embedding toward a newly
    matched one. *)
Context {Embedding : Type}.
Variable distance : Embedding -> Embedding -> Q.
Variable blend : Embedding -> Embedding -> Embedding.

(** A detected box with the embedding of the face in it. *)
Record Detection : Type := { box : Box; embedding : Embedding }.

(** Modelled from the spec: [TrackState] of section 3, with the last known
    owner region that step 4 carries forward. *)
Record TrackState : Type := {
  user_hits : nat;
  user_misses : nat;
  running_embedding : option Embedding;
  last_box : option Box
}.


(** Modelled from the spec: step 1.  The match distance of a box is the
    minimum over the reference embeddings; a profile without embeddings
    matches nothing. *)
Definition reference_distance (refs : list Embedding) (e : Embedding) : option Q :=
  match refs with
  | [] => None
  | r :: rs => Some (fold_left (fun acc r' => Qmin acc (distance e r')) rs (distance e r))
  end.

Definition running_distance (st : TrackState) (e : Embedding) : option Q :=
  distance e <$> running_embedding st.

Definition below (d : option Q) (threshold : Q) : bool :=
  match d with
  | Some q => Qltb q threshold
  | None => false
  end.

(** Modelled from the spec: step 2.  The reference match of a box, and the
    match against the running embedding. *)
Definition reference_match (cfg : Config) (refs : list Embedding) (d : Detection) : bool :=
  below (reference_distance refs (embedding d)) (match_threshold cfg).

Definition running_match (cfg : Config) (st : TrackState) (d : Detection) : bool :=
  below (running_distance st (embedding d)) (match_threshold cfg).

(** Modelled from the spec: the mode policy table.  In [detailed] mode the
    reference match is optional (a match of the running embedding is
    allowed); in [fast] mode it is mandatory. *)
Definition is_candidate (mode : Mode) (cfg : Config) (refs : list Embedding)
    (st : TrackState) (d : Detection) : bool :=
  match mode with
  | detailed => reference_match cfg refs d || running_match cfg st d
  | fast => reference_match cfg refs d
  end.

(** The detections of a frame with their position and match distance. *)
Definition scored (refs : list Embedding) (dets : list Detection)
    : list (Q * (nat * Detection)) :=
  omap (fun id => (fun q => (q, id)) <$> reference_distance refs (embedding (snd id)))
       (imap pair dets).

Definition candidates (mode : Mode) (cfg : Config) (refs : list Embedding)
    (st : TrackState) (dets : list Detection) : list (Q * (nat * Detection)) :=
  List.filter (fun x => is_candidate mode cfg refs st (snd (snd x))) (scored refs dets).

(** Modelled from the spec: the candidate owner match of a frame, the single
    candidate of minimum distance.  [fast] mode requires in addition that
    its distance is below the stricter threshold and that the second-best
    candidate, if any, is farther by more than [min_confidence_gap]. *)
Definition owner_match (mode : Mode) (cfg : Config) (refs : list Embedding)
    (st : TrackState) (dets : list Detection) : option (nat * Detection) :=
  match extract_min (candidates mode cfg refs st dets) with
  | None => None
  | Some ((d1, best), rest) =>
      match mode with
      | detailed => Some best
      | fast =>
          if Qltb d1 (strict_threshold cfg)
             && match extract_min rest with
                | None => true
                | Some ((d2, _), _) => Qltb (min_confidence_gap cfg) (d2 - d1)
                end
          then Some best
          else None
      end
  end.


(** A synthetic frame: one detected box [b], whose face has embedding [e]. *)
Definition synthetic (b : Box) (e : Embedding) : list Detection :=
  [{| box := b; embedding := e |}].

Definition confirmed (cfg : Config) (st : TrackState) : bool :=
  (confirmation_threshold cfg <=? user_hits st)%nat.

(** Every detected box classified [other], but the [i]-th when [i] is given. *)
Definition label_boxes (own : option nat) (dets : list Detection) : list (Box * Label) :=
  imap (fun j d => (box d, if bool_decide (own = Some j) then owner else other)) dets.

(** Modelled from the spec: steps 3 to 5 and the edge cases of section 4.2,
    for one sampled frame; the backend's classifier ([_detect_and_update]
    of the video service) is not among the sources.
    - No detection: the empty decision; the miss counter grows only if the
      owner was confirmed before.
    - A candidate owner match: one more hit, misses back to zero, the running
      embedding blended toward the match; the box is [owner] once the hits
      reach the confirmation threshold, and [other] until then.
    - No candidate: one more miss; while the misses do not exceed the
      tolerance and the owner was confirmed, the last known region is
      carried forward; every detected box is [other]. *)
Definition classify_frame (mode : Mode) (cfg : Config) (refs : list Embedding)
    (st : TrackState) (dets : list Detection) : TrackState * FrameDecision :=
  match dets with
  | [] =>
      ({| user_hits := user_hits st;
          user_misses := if confirmed cfg st then S (user_misses st) else user_misses st;
          running_embedding := running_embedding st;
          last_box := last_box st |},
       empty_decision)
  | _ =>
      match owner_match mode cfg refs st dets with
      | Some (i, d) =>
          let st' :=
            {| user_hits := S (user_hits st);
               user_misses := 0;
               running_embedding :=
                 Some match running_embedding st with
                      | None => embedding d
                      | Some r => blend r (embedding d)
                      end;
               last_box := Some (box d) |} in
          (st',
           {| labelled := label_boxes (if confirmed cfg st' then Some i else None) dets;
              carried := None |})
      | None =>
          let st' :=
            {| user_hits := user_hits st;
               user_misses := S (user_misses st);
               running_embedding := running_embedding st;
               last_box := last_box st |} in
          (st',
           {| labelled := label_boxes None dets;
              carried :=
                if confirmed cfg st && (user_misses st' <=? miss_tolerance cfg)%nat
                then last_box st
                else None |})
      end
  end.







End Classifier.

End Backend.

(** ** Sample inputs *)

Module Samples.
Import JS Store Page.

Definition finishedJob : ProcessingJob :=
  {| jobId := "job-1";
     state := completed;
     progress := JSNumber (number_of_Z 100);
     message := None;
     downloadUrl := Some "/api/videos/job-1/download" |}.

Definition runningStatus (percent : Z) : Status.JobStatusResponse :=
  {| Status.job_id := "job-1";
     Status.state := running;
     Status.progress := JSNumber (number_of_Z percent);
     Status.message := None;
     Status.download_url := None |}.

Definition completedStatus : Status.JobStatusResponse :=
  {| Status.job_id := "job-1";
     Status.state := completed;
     Status.progress := JSNumber (number_of_Z 100);
     Status.message := None;
     Status.download_url := Some "/api/videos/job-1/download" |}.

(** A backend that reports [running] to the first status request and
    [completed] from the second on. *)
Definition finishingStatus (k : nat) : Status.JobStatusResponse :=
  match k with
  | O => runningStatus 40
  | S _ => completedStatus
  end.


(** The page right after [startJob], before [pollJob] is called. *)
Definition startedPage : PageState :=
  {| processingStore := startJob (newJob "job-1" pending) initialStore;
     statusMessage := "";
     errorMessage := JSString "";
     pollHandle := false;
     promise := None |}.

(** [{ message: 42 }] *)
Definition numericMessagePayload : JSValue :=
  JSObject false [("message", JSNumber (number_of_Z 42))].

(** [{ data: { detail: [""] } }] *)
Definition blankDetailPayload : JSValue :=
  JSObject false [("data", JSObject false [("detail", JSArray [JSString ""])])].

(** The body of a validation failure:
    [{ data: { detail: [{ loc: ["body", "video"], msg: "Field required" }] } }] *)
Definition validationPayload : JSValue :=
  JSObject false
    [("data",
      JSObject false
        [("detail",
          JSArray [JSObject false [("loc", JSArray [JSString "body"; JSString "video"]);
                                   ("msg", JSString "Field required")]])])].

(** One-dimensional embeddings, for exercising the classifier. *)
Definition distance1 (a b : Q) : Q := ((a - b) * (a - b))%Q.
Definition blend1 (r e : Q) : Q := ((r + e) * (1 # 2))%Q.

Definition config1 : Backend.Config :=
  {| Backend.match_threshold := 6 # 10;
     Backend.strict_threshold := 5 # 10;
     Backend.min_confidence_gap := 1 # 10;
     Backend.confirmation_threshold := 2;
     Backend.miss_tolerance := 1 |}.

Definition box1 : Backend.Box :=
  {| Backend.box_x := 10; Backend.box_y := 20; Backend.box_w := 64; Backend.box_h := 64 |}.

(** A track state whose running embedding has drifted to 2, away from the
    reference 0. *)
Definition driftedTrack : Backend.TrackState :=
  {| Backend.user_hits := 5;
     Backend.user_misses := 0;
     Backend.running_embedding := Some (2 : Q);
     Backend.last_box := Some box1 |}.

(** A reference image with [n] dominant faces. *)
Definition facesOf (n : nat) : list Q := repeat (0 : Q) n.

End Samples.

(** ** More of the store and of the page script *)

(** *** Partials *)

Module Partials.
Import JS Store.

(** [{}] *)
Definition emptyPartial : PartialJob :=
  {| p_jobId := None; p_state := None; p_progress := None;
     p_message := None; p_downloadUrl := None |}.

(** One key of [{ ...p1, ...p2 }]: the key of [p2] when it is present there,
    the key of [p1] otherwise. *)
Definition laterKey {A : Type} (k1 k2 : option A) : option A :=
  match k2 with
  | Some v => Some v
  | None => k1
  end.

(** [{ ...p1, ...p2 }] *)
Definition mergePartial (p1 p2 : PartialJob) : PartialJob :=
  {| p_jobId := laterKey (p_jobId p1) (p_jobId p2);
     p_state := laterKey (p_state p1) (p_state p2);
     p_progress := laterKey (p_progress p1) (p_progress p2);
     p_message := laterKey (p_message p1) (p_message p2);
     p_downloadUrl := laterKey (p_downloadUrl p1) (p_downloadUrl p2) |}.

End Partials.

(** *** Numbers *)

Module Numbers.
Import JS.

(** [const previewLevel = computed(() => selectedBlur.value * 10)] *)
Definition previewLevel (selectedBlur : Z) : spec_float :=
  mul (number_of_Z selectedBlur) (number_of_Z 10).

(** A finite number is [mantissa * 2 ^ exponent]; a zero is [0 * 2 ^ 0]. *)
Definition mantissa (x : spec_float) : Z :=
  match x with
  | S754_finite s m _ => cond_Zopp s (Z.pos m)
  | _ => 0
  end.

Definition exponent (x : spec_float) : Z :=
  match x with
  | S754_finite _ _ e => e
  | _ => 0
  end.

(** The order of two finite numbers by their values, compared exactly on a
    common scale [2 ^ k] with [k] no larger than either exponent. *)
Definition commonScale (x y : spec_float) : Z :=
  Z.min (Z.min (exponent x) (exponent y)) 0.

Definition finite_le (x y : spec_float) : Prop :=
  mantissa x * 2 ^ (exponent x - commonScale x y)
  <= mantissa y * 2 ^ (exponent y - commonScale x y).

End Numbers.

(** *** The outcome of a polling run *)

Module Run.
Import JS Store Page.

(** [status.message || 'เกิดข้อผิดพลาดระหว่างประมวลผล'] *)
Definition failureMessage (status : Status.JobStatusResponse) : string :=
  match Status.message status with
  | Some m => if String.eqb m "" then failedMessage else m
  | None => failedMessage
  end.

(** How one result, taken alone, settles the promise of [pollJob]: a
    [completed] response resolves it, a [failed] one and a thrown request
    reject it, any other response leaves it pending. *)
Definition outcome (result : FetchResult) : option Settled :=
  match result with
  | fetched status =>
      match Status.state status with
      | completed => Some resolved
      | failed => Some (rejected (JSString (failureMessage status)))
      | _ => None
      end
  | threw error => Some (rejected (extractErrorMessage error))
  end.

(** The outcome of the first result of a run that has one. *)
Fixpoint firstOutcome (results : list FetchResult) : option Settled :=
  match results with
  | [] => None
  | r :: rest =>
      match outcome r with
      | Some o => Some o
      | None => firstOutcome rest
      end
  end.

(** The message of the last rejection among the results, and whether one
    of them resolves. *)
Fixpoint lastRejection (results : list FetchResult) : option JSValue :=
  match results with
  | [] => None
  | r :: rest =>
      match lastRejection rest with
      | Some m => Some m
      | None =>
          match outcome r with
          | Some (rejected m) => Some m
          | _ => None
          end
      end
  end.

Definition anyResolved (results : list FetchResult) : bool :=
  existsb (fun r => match outcome r with
                    | Some resolved => true
                    | _ => false
                    end) results.

(** A [pollJob] run as [await pollJob(...)] sees it: up to the event that
    settles the promise.  The function that awaits goes on before any
    further event. *)
Fixpoint awaitSettled (answer : nat -> FetchResult) (events : list Event) (p : Poller)
    : Poller :=
  match events with
  | [] => p
  | e :: rest =>
      let p' := step answer e p in
      match promise (page p') with
      | Some _ => p'
      | None => awaitSettled answer rest p'
      end
  end.

End Run.

(** *** The reference images *)

Module References.

(** What the page reads of a [File]. *)
Record File : Type := { name : string; size : Z }.

(** [interface ReferenceItem] *)
Record ReferenceItem : Type := {
  id : string;
  file : File;
  previewUrl : string
}.

(** A file of the [FileList], with what [createReferenceItem] draws for it:
    the uid ([crypto.randomUUID()], or the time and a random number) and
    the object URL that [URL.createObjectURL] hands out. *)
Record Picked : Type := {
  picked : File;
  uid : string;
  objectUrl : string
}.

Definition createReferenceItem (p : Picked) : ReferenceItem :=
  {| id := uid p; file := picked p; previewUrl := objectUrl p |}.

(** The list [referenceFaces], and the object URLs of the page that the
    browser holds: [URL.createObjectURL] adds one, [URL.revokeObjectURL]
    releases one. *)
Record RefState : Type := {
  referenceFaces : list ReferenceItem;
  objectUrls : gset string
}.

Definition noReferences : RefState := {| referenceFaces := []; objectUrls := ∅ |}.

(** [uploadReference(files)]: nothing on [null] and on an empty list. *)
Definition uploadReference (files : option (list Picked)) (st : RefState) : RefState :=
  match files with
  | None | Some [] => st
  | Some fs =>
      let newItems := map createReferenceItem fs in
      {| referenceFaces := referenceFaces st ++ newItems;
         objectUrls := objectUrls st ∪ list_to_set (map previewUrl newItems) |}
  end.

(** [removeReference(id)]: [findIndex] gives the first item with that id;
    [splice(index, 1)] takes it out, and its object URL is revoked. *)
Definition removeReference (i : string) (st : RefState) : RefState :=
  match list_find (fun item => id item = i) (referenceFaces st) with
  | None => st
  | Some (index, removed) =>
      {| referenceFaces := delete index (referenceFaces st);
         objectUrls := objectUrls st ∖ {[previewUrl removed]} |}
  end.

(** The list that [findIndex] and [splice] leave. *)
Definition without (i : string) (l : list ReferenceItem) : list ReferenceItem :=
  match list_find (fun item => id item = i) l with
  | None => l
  | Some (index, _) => delete index l
  end.


(** [previewImageSrc] *)
Definition previewImageSrc (st : RefState) : string :=
  match referenceFaces st with
  | item :: _ => previewUrl item
  | [] => "/demo-cat.jpg"
  end.

(** The object URLs the browser holds are those of the listed items, each
    item with a URL of its own. *)
Definition tracked (st : RefState) : Prop :=
  NoDup (map previewUrl (referenceFaces st))
  /\ objectUrls st = list_to_set (map previewUrl (referenceFaces st)).

End References.

(** *** Starting a job *)

From Stdlib Require Import DecimalString.

(** [interface JobCreatedResponse] *)
Module Created.

Record JobCreatedResponse : Type := {
  job_id : string;
  state : Store.JobState
}.

End Created.

Module Processing.
Import JS Store Page References.

(** [type ProcessingMode = 'fast' | 'detailed'] *)
Inductive ProcessingMode : Type := fast | detailed.

Definition modeString (m : ProcessingMode) : string :=
  match m with
  | fast => "fast"
  | detailed => "detailed"
  end.

(** A [FormData]: its entries in the order of the [append] calls. *)
Inductive FormValue : Type :=
| text (s : string)
| blob (f : File).

(** A [POST] request sent through [useApi]. *)
Record Request : Type := {
  path : string;
  body : list (string * FormValue)
}.

(** The refs of the page that [startProcessing] reads and writes, and the
    [POST] requests sent so far, oldest first. *)
Record AppState : Type := {
  pageState : PageState;
  references : RefState;
  targetVideo : option File;
  selectedBlur : Z;
  mode : ProcessingMode;
  isProcessing : bool;
  posted : list Request
}.

Definition with_page (f : PageState -> PageState) (app : AppState) : AppState :=
  {| pageState := f (pageState app);
     references := references app;
     targetVideo := targetVideo app;
     selectedBlur := selectedBlur app;
     mode := mode app;
     isProcessing := isProcessing app;
     posted := posted app |}.

Definition set_isProcessing (b : bool) (app : AppState) : AppState :=
  {| pageState := pageState app;
     references := references app;
     targetVideo := targetVideo app;
     selectedBlur := selectedBlur app;
     mode := mode app;
     isProcessing := b;
     posted := posted app |}.

Definition post (r : Request) (app : AppState) : AppState :=
  {| pageState := pageState app;
     references := references app;
     targetVideo := targetVideo app;
     selectedBlur := selectedBlur app;
     mode := mode app;
     isProcessing := isProcessing app;
     posted := posted app ++ [r] |}.

Definition userId : string := "demo-user".

(** The form of [uploadReferenceFaces]: one [images] entry per reference
    item, then [user_id]. *)
Definition referenceForm (app : AppState) : list (string * FormValue) :=
  map (fun item => ("images", blob (file item))) (referenceFaces (references app))
  ++ [("user_id", text userId)].

(** The form of [submitBlurJob]: [user_id], [mode], [blur_level] as
    [String(selectedBlur.value)], and [video] when a video is selected. *)
Definition blurForm (app : AppState) : list (string * FormValue) :=
  [("user_id", text userId);
   ("mode", text (modeString (mode app)));
   ("blur_level", text (NilZero.string_of_int (Z.to_int (selectedBlur app))))]
  ++ match targetVideo app with
     | Some video => [("video", blob video)]
     | None => []
     end.


(** The text values a form carries under a key. *)
Definition formTexts (key : string) (form : list (string * FormValue)) : list string :=
  omap (fun entry => match entry with
                     | (k, text t) => if String.eqb k key then Some t else None
                     | _ => None
                     end) form.

(** How an awaited request ends. *)
Inductive Await (A : Type) : Type :=
| returned (a : A)
| failedWith (error : JSValue).
Arguments returned {A} a.
Arguments failedWith {A} error.

(** [a === b].  Two objects or two arrays are equal when they are the same
    object, which this data model does not tell; in [startProcessing] one
    operand is always a string. *)
Definition strictEq (a b : JSValue) : bool :=
  match a, b with
  | JSUndefined, JSUndefined => true
  | JSNull, JSNull => true
  | JSBoolean x, JSBoolean y => Bool.eqb x y
  | JSNumber x, JSNumber y => SFeqb x y
  | JSString x, JSString y => String.eqb x y
  | _, _ => false
  end.

Section StartProcessing.

(** The engine's [ToString] on values that are not strings. *)
Variable toString : JSValue -> string.

(** [new Error(message)]: the message is the argument converted to a
    string; without an argument it is the empty string. *)
Definition newError (message : JSValue) : JSValue :=
  JSObject true
    [("message",
      JSString match message with
               | JSString s => s
               | JSUndefined => ""
               | v => toString v
               end)].

(** [error.message] on an [Error]: its own property, or the empty string
    that [Error.prototype] holds. *)
Definition inheritedMessage (error : JSValue) : JSValue :=
  match error with
  | JSObject _ props => default (JSString "") (assoc "message" props)
  | _ => JSUndefined
  end.

(** The [catch] block of [startProcessing]. *)
Definition catchBlock (error : JSValue) (app : AppState) : AppState :=
  let app :=
    if negb (instanceofError error
             && strictEq (inheritedMessage error) (errorMessage (pageState app)))
    then with_page (set_errorMessage (extractErrorMessage error)) app
    else app in
  with_page (with_store clearJob) app.

(** The [finally] block. *)
Definition finallyBlock (app : AppState) : AppState := set_isProcessing false app.

(** [startProcessing], on the way its three awaits end: the upload of the
    reference faces, the submission of the job, and the events of the
    [pollJob] run up to the one that settles its promise.  While the
    promise is pending the function has not returned, and the state is the
    one it waits in. *)
Definition startProcessing (upload : Await unit)
    (submit : Await Created.JobCreatedResponse)
    (answer : nat -> FetchResult) (events : list Event)
    (app : AppState) : AppState :=
  if Nat.eqb (length (referenceFaces (references app))) 0
     || negb (bool_decide (is_Some (targetVideo app)))
  then app
  else
    let app := set_isProcessing true app in
    let app := with_page (set_errorMessage (JSString "")) app in
    let app := with_page (set_statusMessage "") app in
    let app := with_page resetPoller app in
    let app := post {| path := "/faces/reference"; body := referenceForm app |} app in
    match upload with
    | failedWith error => finallyBlock (catchBlock error app)
    | returned _ =>
        let app := post {| path := "/videos/blur"; body := blurForm app |} app in
        match submit with
        | failedWith error => finallyBlock (catchBlock error app)
        | returned job =>
            let app :=
              with_page
                (with_store (startJob (newJob (Created.job_id job) (Created.state job))))
                app in
            let app :=
              with_page (fun pg => page (Run.awaitSettled answer events (polling pg)))
                        app in
            match promise (pageState app) with
            | Some resolved => finallyBlock app
            | Some (rejected message) => finallyBlock (catchBlock (newError message) app)
            | None => app
            end
        end
    end.

End StartProcessing.


End Processing.

(** *** More sample inputs *)

Module MoreSamples.
Import JS Store Page References.

Definition portrait : File := {| name := "me.jpg"; size := 204800 |}.
Definition profile : File := {| name := "side.png"; size := 102400 |}.
Definition clip : File := {| name := "clip.mp4"; size := 7340032 |}.

Definition pickedPortrait : Picked :=
  {| picked := portrait; uid := "uid-1"; objectUrl := "blob:1" |}.
Definition pickedProfile : Picked :=
  {| picked := profile; uid := "uid-2"; objectUrl := "blob:2" |}.

Definition twoReferences : RefState :=
  uploadReference (Some [pickedPortrait; pickedProfile]) noReferences.

Definition idlePage : PageState :=
  {| processingStore := initialStore;
     statusMessage := "";
     errorMessage := JSString "";
     pollHandle := false;
     promise := None |}.

(** The page with two reference faces and a video chosen, at blur level 5
    in [fast] mode. *)
Definition readyApp : Processing.AppState :=
  {| Processing.pageState := idlePage;
     Processing.references := twoReferences;
     Processing.targetVideo := Some clip;
     Processing.selectedBlur := 5;
     Processing.mode := Processing.fast;
     Processing.isProcessing := false;
     Processing.posted := [] |}.

Definition createdJob : Created.JobCreatedResponse :=
  {| Created.job_id := "job-1"; Created.state := pending |}.

Definition failedStatus : Status.JobStatusResponse :=
  {| Status.job_id := "job-1";
     Status.state := failed;
     Status.progress := JSNumber (number_of_Z 40);
     Status.message := Some "ffmpeg failed";
     Status.download_url := None |}.

(** 12.5, as [7036874417766400 * 2 ^ -49]. *)
Definition twelveAndHalf : spec_float := S754_finite false 7036874417766400 (-49).

(** [ToString] on the values these samples hold: whole numbers, strings,
    the constants and plain objects. *)
Definition toString (v : JSValue) : string :=
  match v with
  | JSUndefined => "undefined"
  | JSNull => "null"
  | JSBoolean true => "true"
  | JSBoolean false => "false"
  | JSNumber x => NilZero.string_of_int (Z.to_int (Math_round x))
  | JSString s => s
  | JSArray _ => ""
  | JSObject _ _ => "[object Object]"
  end.

(** A backend that reports [running] to the first status request and a
    failure from the second on. *)
Definition failingStatus (k : nat) : Status.JobStatusResponse :=
  match k with
  | O => Samples.runningStatus 10
  | S _ => failedStatus
  end.

End MoreSamples.

(** * Properties *)

Import JS Store Page.

(** ** The store *)

(** C9. [updateJob] changes only what the partial names: every field of the
    current job whose key is absent from the partial keeps its value, and
    without a current job the store is returned as it was. *)
Theorem updateJob_frame (partial : PartialJob) (st : ProcessingStore) :
  match currentJob st with
  | None => updateJob partial st = st
  | Some job =>
      exists job', currentJob (updateJob partial st) = Some job'
        /\ (p_jobId partial = None -> jobId job' = jobId job)
        /\ (p_state partial = None -> state job' = state job)
        /\ (p_progress partial = None -> progress job' = progress job)
        /\ (p_message partial = None -> message job' = message job)
        /\ (p_downloadUrl partial = None -> downloadUrl job' = downloadUrl job)
  end.
Proof.
  unfold updateJob.
  destruct (currentJob st) as [job |] eqn:Hjob; [| reflexivity].
  exists (spread job partial). cbn.
  repeat split; intros ->; reflexivity.
Qed.

(** A partial that names [progress] alone, on a finished job and on the
    empty store. *)
Lemma updateJob_frame_witness :
  (exists job',
      currentJob (updateJob
                    {| p_jobId := None; p_state := None;
                       p_progress := Some (JSNumber (number_of_Z 7));
                       p_message := None; p_downloadUrl := None |}
                    (startJob Samples.finishedJob initialStore)) = Some job'
      /\ state job' = completed
      /\ downloadUrl job' = Some "/api/videos/job-1/download")
  /\ updateJob (statusPartial Samples.completedStatus) initialStore = initialStore.
Proof.
  split.
  - destruct (updateJob_frame
                {| p_jobId := None; p_state := None;
                   p_progress := Some (JSNumber (number_of_Z 7));
                   p_message := None; p_downloadUrl := None |}
                (startJob Samples.finishedJob initialStore))
      as (job' & Hjob & _ & Hstate & _ & _ & Hurl).
    exists job'. split; [exact Hjob |]. split.
    + apply Hstate. reflexivity.
    + apply Hurl. reflexivity.
  - exact (updateJob_frame (statusPartial Samples.completedStatus) initialStore).
Defined.

(** ** The progress display *)

Lemma clamp_range (r : Z) : 0 <= Z.max 0 (Z.min 100 r) <= 100.
Proof. lia. Qed.

Lemma displayProgress_of_number (x : spec_float) :
  displayProgress_of (JSNumber x) =
  match x with
  | S754_zero _ | S754_finite _ _ _ => Z.max 0 (Z.min 100 (Math_round x))
  | _ => 0
  end.
Proof. destruct x; reflexivity. Qed.

Lemma displayProgress_of_range (value : JSValue) :
  0 <= displayProgress_of value <= 100.
Proof.
  destruct value as [| | b | x | s | items | e props]; try (cbn; lia).
  rewrite displayProgress_of_number.
  destruct x; try lia; apply clamp_range.
Qed.

(** C8. Whatever raw value the poll stored as [progress], the displayed
    progress is an integer between 0 and 100; it is 0 for every value that
    is not a finite number (NaN, the infinities, anything that is not a
    number), and the rounded value clamped to 0..100 for a finite one. *)
Theorem displayProgress_in_range (value : JSValue) :
  0 <= displayProgress_of value <= 100
  /\ (Number_isFinite value = false -> displayProgress_of value = 0)
  /\ (forall x, value = JSNumber x -> Number_isFinite value = true ->
      displayProgress_of value = Z.max 0 (Z.min 100 (Math_round x))).
Proof.
  split; [| split].
  - apply displayProgress_of_range.
  - intros Hfin.
    destruct value as [| | b | x | s | items | e props]; try reflexivity.
    destruct x; try reflexivity; discriminate Hfin.
  - intros x -> Hfin. rewrite displayProgress_of_number.
    destruct x; try reflexivity; discriminate Hfin.
Qed.

Lemma displayProgress_in_range_witness :
  displayProgress_of (JSNumber (S754_infinity false)) = 0
  /\ displayProgress_of (JSNumber S754_nan) = 0
  /\ displayProgress_of (JSString "42") = 0
  /\ displayProgress_of (JSNumber (number_of_Z 250)) = 100.
Proof.
  split; [| split; [| split]].
  - apply (displayProgress_in_range (JSNumber (S754_infinity false))). reflexivity.
  - apply (displayProgress_in_range (JSNumber S754_nan)). reflexivity.
  - apply (displayProgress_in_range (JSString "42")). reflexivity.
  - rewrite (proj2 (proj2 (displayProgress_in_range (JSNumber (number_of_Z 250))))
               (number_of_Z 250) eq_refl eq_refl).
    reflexivity.
Defined.

(** The same bound on the computed property of the page, with or without a
    current job. *)
Corollary displayProgress_store_in_range (st : ProcessingStore) :
  0 <= displayProgress st <= 100.
Proof. unfold displayProgress. apply displayProgress_of_range. Qed.

Example displayProgress_samples :
  map displayProgress_of
      [JSNumber (number_of_Z 42); JSNumber (number_of_Z (-5));
       JSNumber (number_of_Z 250); JSNumber (S754_finite false 5 (-1));
       JSNumber (S754_finite true 1 (-1)); JSUndefined; JSNull]
  = [42; 0; 100; 3; 0; 0; 0].
Proof. reflexivity. Qed.

(** ** The error message *)

Lemma truthy_string (v : JSValue) :
  String.eqb (typeof v) "string" = true -> truthy v = true -> nonEmptyString v.
Proof.
  destruct v as [| | b | x | s | items | e props]; try discriminate.
  intros _ Ht. exists s. split; [reflexivity |].
  intros ->. discriminate Ht.
Qed.

Lemma stringOrFalsy_truthy (v : JSValue) :
  stringOrFalsy v = true -> truthy v = true -> nonEmptyString v.
Proof.
  unfold stringOrFalsy. intros H Ht.
  apply orb_true_iff in H as [H | H].
  - now apply truthy_string.
  - rewrite Ht in H. discriminate H.
Qed.

Lemma unknownErrorMessage_nonEmpty : nonEmptyString (JSString unknownErrorMessage).
Proof. exists unknownErrorMessage. split; [reflexivity | discriminate]. Qed.

Lemma detailMessage_nonEmpty (detail r : JSValue) :
  blankFirstDetail detail = false ->
  detailMessage detail = Some r -> nonEmptyString r.
Proof.
  unfold detailMessage. intros Hblank.
  destruct (truthy detail) eqn:Ht; [| discriminate].
  destruct (String.eqb (typeof detail) "string") eqn:Hs.
  - intros [= <-]. now apply truthy_string.
  - destruct detail as [| | b | x | s | items | e props]; try discriminate.
    destruct items as [| firstDetail items]; [discriminate |].
    destruct firstDetail as [| | b | x | s | fitems | fe fprops]; try discriminate.
    + cbn. intros [= <-]. exists s. split; [reflexivity |].
      intros ->. discriminate Hblank.
    + cbn in *. destruct (assoc "msg" fprops) as [m |] eqn:Hm; cbn; [| discriminate].
      destruct m as [| | b | x | s | mitems | me mprops]; cbn; try discriminate.
      intros [= <-]. exists s. split; [reflexivity |].
      intros ->. discriminate Hblank.
Qed.

Lemma fallback_nonEmpty (maybe : JSValue) :
  typedPayload maybe = true ->
  nonEmptyString (js_or (js_or (get maybe "message") (get maybe "statusMessage"))
                        (JSString unknownErrorMessage)).
Proof.
  unfold typedPayload. intros H. apply andb_true_iff in H as [Hm Hs].
  unfold js_or.
  destruct (truthy (get maybe "message")) eqn:Tm.
  - rewrite Tm. now apply stringOrFalsy_truthy.
  - destruct (truthy (get maybe "statusMessage")) eqn:Ts.
    + now apply stringOrFalsy_truthy.
    + apply unknownErrorMessage_nonEmpty.
Qed.

(** C10, as amended.  [extractErrorMessage] is a total function of its
    argument.  When the [message] and [statusMessage] it reads are strings
    (or falsy), as [ErrorPayload] declares them, and an array [detail] does
    not start with an empty string or with an object whose [msg] is empty,
    the result is a non-empty string. *)
Theorem extractErrorMessage_nonEmpty (error : JSValue) :
  typedPayload error = true ->
  blankFirstDetail (get (get error "data") "detail") = false ->
  nonEmptyString (extractErrorMessage error).
Proof.
  intros Htyped Hblank. unfold extractErrorMessage.
  destruct (truthy error) eqn:Ht; cbn [negb].
  2: apply unknownErrorMessage_nonEmpty.
  destruct (String.eqb (typeof error) "string") eqn:Hs.
  1: now apply truthy_string.
  destruct (instanceofError error && truthy (get error "message")) eqn:He.
  - apply andb_true_iff in He as [_ Hm].
    apply stringOrFalsy_truthy; [| exact Hm].
    unfold typedPayload in Htyped. now apply andb_true_iff in Htyped as [? _].
  - destruct (detailMessage (get (get error "data") "detail")) as [r |] eqn:Hd.
    + now apply (detailMessage_nonEmpty _ _ Hblank).
    + now apply fallback_nonEmpty.
Qed.

Lemma extractErrorMessage_nonEmpty_witness :
  nonEmptyString (extractErrorMessage Samples.validationPayload)
  /\ nonEmptyString (extractErrorMessage JSNull).
Proof.
  split.
  - apply (extractErrorMessage_nonEmpty Samples.validationPayload); reflexivity.
  - apply (extractErrorMessage_nonEmpty JSNull); reflexivity.
Defined.

(** C10 as stated fails: [{ message: 42 }] comes back as the number 42, and
    [{ data: { detail: [""] } }] as the empty string. *)
Lemma extractErrorMessage_counterexample :
  extractErrorMessage Samples.numericMessagePayload = JSNumber (number_of_Z 42)
  /\ ~ nonEmptyString (extractErrorMessage Samples.numericMessagePayload)
  /\ extractErrorMessage Samples.blankDetailPayload = JSString ""
  /\ ~ nonEmptyString (extractErrorMessage Samples.blankDetailPayload).
Proof.
  split; [reflexivity |]. split.
  - intros [s [Hs _]]. discriminate Hs.
  - split; [reflexivity |].
    intros [s [Hs Hne]]. injection Hs as <-. now apply Hne.
Qed.

(** What the function answers on the shapes it names. *)
Example extractErrorMessage_samples :
  map extractErrorMessage
      [JSNull; JSString "boom";
       JSObject true [("message", JSString "[GET] /jobs/1: 500")];
       JSObject false [("data", JSObject false [("detail", JSString "Job not found")])];
       Samples.validationPayload;
       JSObject false [("data", JSObject false [("detail", JSObject false [])]);
                       ("statusMessage", JSString "Bad Gateway")]]
  = [JSString unknownErrorMessage; JSString "boom";
     JSString "[GET] /jobs/1: 500"; JSString "Job not found";
     JSString "Field required"; JSString "Bad Gateway"].
Proof. reflexivity. Qed.

(** ** The store as a whole *)

Section StoreLaws.
Import Partials.

Lemma spread_empty (job : ProcessingJob) : spread job emptyPartial = job.
Proof. destruct job. reflexivity. Qed.

Lemma spread_merge (job : ProcessingJob) (p1 p2 : PartialJob) :
  spread (spread job p1) p2 = spread job (mergePartial p1 p2).
Proof.
  destruct p1 as [a1 b1 c1 d1 e1], p2 as [a2 b2 c2 d2 e2].
  unfold spread, mergePartial. cbn.
  destruct a2, b2, c2, d2, e2; reflexivity.
Qed.

(** X1. The three actions of the store compose: two [updateJob] calls are
    one call with the merged partial [{ ...p1, ...p2 }], the same partial
    twice is the partial once, the empty partial changes nothing, an update
    after [clearJob] is lost, and an update after [startJob] is [startJob]
    of the updated job. *)
Theorem updateJob_composes (p1 p2 : PartialJob) (job : ProcessingJob)
    (st : ProcessingStore) :
  updateJob p2 (updateJob p1 st) = updateJob (mergePartial p1 p2) st
  /\ updateJob p1 (updateJob p1 st) = updateJob p1 st
  /\ updateJob emptyPartial st = st
  /\ updateJob p1 (clearJob st) = clearJob st
  /\ updateJob p1 (startJob job st) = startJob (spread job p1) st.
Proof.
  assert (Hcomp : forall q1 q2,
             updateJob q2 (updateJob q1 st) = updateJob (mergePartial q1 q2) st).
  { intros q1 q2. unfold updateJob. destruct st as [[j |]]; cbn; [| reflexivity].
    now rewrite spread_merge. }
  split; [apply Hcomp |]. split; [| split; [| split]].
  - rewrite Hcomp. f_equal.
    destruct p1 as [a b c d e]. unfold mergePartial. cbn.
    destruct a, b, c, d, e; reflexivity.
  - unfold updateJob. destruct st as [[j |]]; cbn; [| reflexivity].
    now rewrite spread_empty.
  - reflexivity.
  - reflexivity.
Qed.

End StoreLaws.

(** ** Polling *)

Lemma fetchStatus_store (status : Status.JobStatusResponse) (pg : PageState) :
  processingStore (fetchStatus (fetched status) pg)
  = updateJob (statusPartial status) (processingStore pg).
Proof. unfold fetchStatus. destruct (Status.state status); reflexivity. Qed.

Lemma fetchStatus_job (status : Status.JobStatusResponse) (pg : PageState) (job : ProcessingJob) :
  currentJob (processingStore pg) = Some job ->
  currentJob (processingStore (fetchStatus (fetched status) pg)) = Some (mirrored job status).
Proof.
  intros Hjob. rewrite fetchStatus_store. unfold updateJob. rewrite Hjob. reflexivity.
Qed.


(** A thrown request leaves the store alone and stops the interval. *)
Lemma fetchStatus_threw (error : JSValue) (pg : PageState) :
  processingStore (fetchStatus (threw error) pg) = processingStore pg
  /\ pollHandle (fetchStatus (threw error) pg) = false.
Proof. split; reflexivity. Qed.




(** The page after a run is the page after the answers that arrived,
    handled in that order. *)
Lemma run_page (answer : nat -> FetchResult) (events : list Event) (p : Poller) :
  page (run answer events p) = handle (map answer (arrivals answer events p)) (page p).
Proof.
  revert p. induction events as [| e events IH]; intros p; [reflexivity |].
  cbn [run arrivals]. destruct e as [| k].
  - rewrite IH. cbn [step]. by destruct (pollHandle (page p)).
  - destruct (awaited k p) eqn:Hk; rewrite IH; cbn [step]; rewrite Hk; reflexivity.
Qed.










(** Every store of a run has what the first one has and every handled
    answer keeps. *)
Lemma observations_invariant (P : ProcessingStore -> Prop) (answer : nat -> FetchResult)
    (events : list Event) (p : Poller) :
  P (processingStore (page p)) ->
  (forall k pg, P (processingStore pg) -> P (processingStore (fetchStatus (answer k) pg))) ->
  Forall P (observations answer events p).
Proof.
  intros Hp Hkeep. revert p Hp.
  induction events as [| e events IH]; intros p Hp; [constructor |].
  cbn [observations]. destruct e as [| k].
  - apply IH. cbn [step]. by destruct (pollHandle (page p)).
  - destruct (awaited k p) eqn:Hk.
    + assert (Hstep : P (processingStore (page (step answer (arrival k) p)))).
      { cbn [step]. rewrite Hk. by apply Hkeep. }
      constructor; [exact Hstep | by apply IH].
    + apply IH. cbn [step]. by rewrite Hk.
Qed.

(** C5.  The job the page holds names a download location exactly when its
    state is [completed], from [startJob] on and after every handled answer
    of the [pollJob] run, in whatever order the answers arrive: provided
    the backend does its part, which is that the job it creates is not yet
    completed and that each of its status responses names a location
    exactly when it reports [completed].  The download link is shown
    exactly for such a job: never for a failed one or one in flight. *)
Theorem download_shown_iff_completed (answer : nat -> FetchResult)
    (events : list Event) (pg : PageState) (job_id : string) (created : JobState)
    (store : ProcessingStore) (job : ProcessingJob) :
  created <> completed ->
  (forall k status, answer k = fetched status ->
     (isPopulated (Status.download_url status) = true
      <-> Status.state status = completed)) ->
  In store
     (processingStore (with_store (startJob (newJob job_id created)) pg)
      :: observations answer events
           (polling (with_store (startJob (newJob job_id created)) pg))) ->
  currentJob store = Some job ->
  (isPopulated (downloadUrl job) = true <-> state job = completed)
  /\ (showsDownload job = true <-> state job = completed).
Proof.
  intros Hcreated Hanswers Hin Hjob.
  set (P := fun st : ProcessingStore =>
              forall j, currentJob st = Some j ->
                        (isPopulated (downloadUrl j) = true <-> state j = completed)).
  assert (Hall : Forall P
            (processingStore (with_store (startJob (newJob job_id created)) pg)
             :: observations answer events
                  (polling (with_store (startJob (newJob job_id created)) pg)))).
  { assert (Hfirst : P (processingStore
                          (with_store (startJob (newJob job_id created)) pg))).
    { intros j [= <-]. cbn. split; [discriminate | by intros ->]. }
    constructor; [exact Hfirst |].
    apply observations_invariant; [exact Hfirst |].
    intros k pg0 Hpg0 j. destruct (answer k) as [status | error] eqn:Hk.
    - rewrite fetchStatus_store. unfold updateJob.
      destruct (currentJob (processingStore pg0)) as [j0 |] eqn:Hj0.
      + intros [= <-]. cbn. by apply (Hanswers k).
      + rewrite Hj0. discriminate.
    - apply Hpg0. }
  rewrite Forall_forall in Hall.
  assert (Hurl : isPopulated (downloadUrl job) = true <-> state job = completed).
  { apply (Hall store); [by apply list_elem_of_In | exact Hjob]. }
  split; [exact Hurl |].
  rewrite <- Hurl. unfold showsDownload, isPopulated.
  destruct (downloadUrl job); reflexivity.
Qed.

(** The run of two outstanding requests whose answers arrive in the wrong
    order: the store ends with a running job, and shows no link. *)
Lemma download_shown_iff_completed_witness :
  (showsDownload (mirrored (newJob "job-1" pending) Samples.completedStatus) = true
   <-> state (mirrored (newJob "job-1" pending) Samples.completedStatus) = completed)
  /\ (showsDownload (mirrored (newJob "job-1" pending) (Samples.runningStatus 40)) = true
      <-> state (mirrored (newJob "job-1" pending) (Samples.runningStatus 40))
          = completed).
Proof.
  assert (Hanswers : forall k status,
             reports Samples.finishingStatus k = fetched status ->
             (isPopulated (Status.download_url status) = true
              <-> Status.state status = completed)).
  { intros [| k] status [= <-]; cbn; split; (reflexivity || discriminate). }
  split.
  - apply (download_shown_iff_completed (reports Samples.finishingStatus)
             [tick; arrival 1; arrival 0] MoreSamples.idlePage "job-1" pending
             (startJob (mirrored (newJob "job-1" pending) Samples.completedStatus)
                initialStore)
             (mirrored (newJob "job-1" pending) Samples.completedStatus));
      [discriminate | exact Hanswers | right; left; reflexivity | reflexivity].
  - apply (download_shown_iff_completed (reports Samples.finishingStatus)
             [tick; arrival 1; arrival 0] MoreSamples.idlePage "job-1" pending
             (startJob (mirrored (newJob "job-1" pending) (Samples.runningStatus 40))
                initialStore)
             (mirrored (newJob "job-1" pending) (Samples.runningStatus 40)));
      [discriminate | exact Hanswers | right; right; left; reflexivity | reflexivity].
Defined.

(** ** The outcome of a polling run *)

Section RunLaws.
Import Run.

(** What one answer does to the promise, the interval and the messages. *)
Lemma fetchStatus_outcome (r : FetchResult) (pg : PageState) :
  promise (fetchStatus r pg)
  = match promise pg with Some o => Some o | None => outcome r end
  /\ pollHandle (fetchStatus r pg)
     = match outcome r with Some _ => false | None => pollHandle pg end
  /\ errorMessage (fetchStatus r pg)
     = match outcome r with Some (rejected m) => m | _ => errorMessage pg end
  /\ statusMessage (fetchStatus r pg)
     = match outcome r with Some resolved => completedMessage | _ => statusMessage pg end.
Proof.
  destruct r as [status | error]; unfold fetchStatus, outcome, failureMessage.
  - destruct (Status.state status); cbn; destruct (promise pg); repeat split; reflexivity.
  - cbn. destruct (promise pg); repeat split; reflexivity.
Qed.

Lemma fetchStatus_jobId (r : FetchResult) (pg : PageState) :
  jobId <$> currentJob (processingStore (fetchStatus r pg))
  = jobId <$> currentJob (processingStore pg).
Proof.
  destruct r as [status | error]; [| reflexivity].
  rewrite fetchStatus_store. unfold updateJob.
  destruct (currentJob (processingStore pg)) eqn:Hjob; [reflexivity |].
  rewrite Hjob. reflexivity.
Qed.

Lemma handle_outcome (results : list FetchResult) (pg : PageState) :
  promise (handle results pg)
  = match promise pg with Some o => Some o | None => firstOutcome results end
  /\ pollHandle (handle results pg)
     = match firstOutcome results with Some _ => false | None => pollHandle pg end
  /\ errorMessage (handle results pg)
     = match lastRejection results with Some m => m | None => errorMessage pg end
  /\ statusMessage (handle results pg)
     = (if anyResolved results then completedMessage else statusMessage pg)
  /\ jobId <$> currentJob (processingStore (handle results pg))
     = jobId <$> currentJob (processingStore pg).
Proof.
  revert pg. induction results as [| r results IH]; intros pg.
  - cbn. destruct (promise pg); repeat split; reflexivity.
  - unfold handle in *. cbn [fold_left firstOutcome lastRejection anyResolved existsb].
    destruct (IH (fetchStatus r pg)) as (I1 & I2 & I3 & I4 & I5).
    destruct (fetchStatus_outcome r pg) as (F1 & F2 & F3 & F4).
    rewrite I1, I2, I3, I4, I5, F1, F2, F3, F4, fetchStatus_jobId.
    fold (anyResolved results).
    repeat split.
    + destruct (promise pg); [reflexivity |]. by destruct (outcome r).
    + destruct (outcome r); [| reflexivity]. by destruct (firstOutcome results).
    + destruct (lastRejection results); [reflexivity |].
      by destruct (outcome r) as [[| m] |].
    + destruct (outcome r) as [[| m] |]; cbn [orb]; try reflexivity.
      by destruct (anyResolved results).
Qed.

(** X2. What a [pollJob] run leaves, by the answers that arrived, in the
    order of arrival.  The promise is settled by the first answer that is
    decisive (a [completed] or [failed] response, or a thrown request), and
    is pending when there is none; the interval is cleared exactly when the
    promise is settled.  The messages follow every answer handled, also
    those that arrive after the promise is settled: [errorMessage] is the
    message of the last failure, and [statusMessage] the completion message
    once an answer reports [completed]. *)
Theorem pollJob_outcome (answer : nat -> FetchResult) (events : list Event)
    (pg : PageState) :
  promise (pollJob answer events pg)
  = firstOutcome (map answer (arrivals answer events (polling pg)))
  /\ pollHandle (pollJob answer events pg)
     = match firstOutcome (map answer (arrivals answer events (polling pg))) with
       | Some _ => false
       | None => true
       end
  /\ errorMessage (pollJob answer events pg)
     = match lastRejection (map answer (arrivals answer events (polling pg))) with
       | Some m => m
       | None => errorMessage pg
       end
  /\ statusMessage (pollJob answer events pg)
     = (if anyResolved (map answer (arrivals answer events (polling pg)))
        then completedMessage
        else statusMessage pg).
Proof.
  unfold pollJob. rewrite run_page.
  destruct (handle_outcome (map answer (arrivals answer events (polling pg)))
              (page (polling pg))) as (H1 & H2 & H3 & H4 & _).
  repeat split; assumption.
Qed.

(** X3. A polling run never changes the id of the current job, never puts
    a job into an empty store and never removes the job: whatever the
    answers hold and in whatever order they arrive, the stored [jobId] is
    the one [startJob] was given. *)
Theorem pollJob_keeps_jobId (answer : nat -> FetchResult) (events : list Event)
    (pg : PageState) :
  jobId <$> currentJob (processingStore (pollJob answer events pg))
  = jobId <$> currentJob (processingStore pg).
Proof.
  unfold pollJob. rewrite run_page.
  destruct (handle_outcome (map answer (arrivals answer events (polling pg)))
              (page (polling pg))) as (_ & _ & _ & _ & H).
  exact H.
Qed.

Lemma failureMessage_nonEmpty (status : Status.JobStatusResponse) :
  failureMessage status <> "".
Proof.
  unfold failureMessage. destruct (Status.message status) as [m |]; [| discriminate].
  destruct (String.eqb_spec m ""); [discriminate | assumption].
Qed.

Lemma failureMessage_given (status : Status.JobStatusResponse) (text : string) :
  Status.message status = Some text -> text <> "" -> failureMessage status = text.
Proof.
  intros Hm Hne. unfold failureMessage. rewrite Hm.
  destruct (String.eqb_spec text ""); [contradiction | reflexivity].
Qed.

(** Where a rejection comes from. *)
Lemma firstOutcome_rejected (results : list FetchResult) (m : JSValue) :
  firstOutcome results = Some (rejected m) ->
  (exists status, fetched status ∈ results /\ Status.state status = failed
                  /\ m = JSString (failureMessage status))
  \/ (exists error, threw error ∈ results /\ m = extractErrorMessage error).
Proof.
  induction results as [| r rest IH]; [discriminate |].
  cbn [firstOutcome]. destruct (outcome r) as [o |] eqn:Hout.
  - intros [= ->]. destruct r as [status | error]; cbn in Hout.
    + left. exists status. destruct (Status.state status) eqn:Hs; try discriminate.
      injection Hout as <-. split; [apply list_elem_of_here |]. split; reflexivity.
    + right. exists error. injection Hout as <-.
      split; [apply list_elem_of_here | reflexivity].
  - intros H. destruct (IH H) as [(status & Hin & Hrest) | (error & Hin & Hrest)].
    + left. exists status. split; [now apply list_elem_of_further | exact Hrest].
    + right. exists error. split; [now apply list_elem_of_further | exact Hrest].
Qed.

(** X4. The message a [pollJob] run is rejected with has one of two
    origins: an answer that reported [failed], and then it is a non-empty
    string, the response's own message when it carries a non-empty one; or
    a request that threw, and then it is what [extractErrorMessage] makes
    of the thrown value. *)
Theorem pollJob_rejection_message (answer : nat -> FetchResult) (events : list Event)
    (pg : PageState) (m : JSValue) :
  promise (pollJob answer events pg) = Some (rejected m) ->
  (exists k status,
      k ∈ arrivals answer events (polling pg)
      /\ answer k = fetched status /\ Status.state status = failed
      /\ nonEmptyString m
      /\ (forall text, Status.message status = Some text -> text <> "" ->
          m = JSString text))
  \/ (exists k error,
        k ∈ arrivals answer events (polling pg)
        /\ answer k = threw error /\ m = extractErrorMessage error).
Proof.
  unfold pollJob. rewrite run_page.
  destruct (handle_outcome (map answer (arrivals answer events (polling pg)))
              (page (polling pg))) as (Hp & _).
  rewrite Hp. cbn [polling page startPolling promise]. intros Hout.
  destruct (firstOutcome_rejected _ m Hout)
    as [(status & Hin & Hs & ->) | (error & Hin & ->)];
    apply list_elem_of_fmap in Hin as (k & Hk & Hin).
  - left. exists k, status. split; [exact Hin |]. split; [by symmetry |].
    split; [exact Hs |]. split.
    + exists (failureMessage status). split; [reflexivity | apply failureMessage_nonEmpty].
    + intros text Hm Hne. f_equal. now apply failureMessage_given.
  - right. exists k, error. split; [exact Hin |]. split; [by symmetry | reflexivity].
Qed.

(** The arrivals of a run depend on the page through its interval only. *)
Lemma arrivals_page (answer : nat -> FetchResult) (events : list Event) (p p' : Poller) :
  pollHandle (page p) = pollHandle (page p') ->
  started p = started p' ->
  waiting p = waiting p' ->
  arrivals answer events p = arrivals answer events p'.
Proof.
  revert p p'. induction events as [| e events IH]; intros p p' Hh Hs Hw; [reflexivity |].
  cbn [arrivals]. unfold awaited. rewrite <- Hw.
  assert (Hstep : pollHandle (page (step answer e p)) = pollHandle (page (step answer e p'))
                  /\ started (step answer e p) = started (step answer e p')
                  /\ waiting (step answer e p) = waiting (step answer e p')).
  { destruct e as [| k]; cbn [step]; unfold awaited; rewrite <- Hw.
    - rewrite <- Hh. destruct (pollHandle (page p)) eqn:E; cbn [page started waiting].
      + rewrite <- Hs. split; [congruence |]. by split.
      + split; [congruence |]. by split.
    - destruct (existsb (Nat.eqb k) (waiting p)); cbn [page started waiting];
        [| split; [exact Hh |]; by split].
      destruct (fetchStatus_outcome (answer k) (page p)) as (_ & -> & _).
      destruct (fetchStatus_outcome (answer k) (page p')) as (_ & -> & _).
      rewrite Hh. split; [reflexivity |]. by split. }
  destruct Hstep as (H1 & H2 & H3).
  rewrite (IH _ _ H1 H2 H3). reflexivity.
Qed.

(** The run up to the settling of the promise, by the answers that arrive:
    the first decisive one settles it, with its message, and the job is the
    one that answer reported when it resolves. *)
Lemma awaitSettled_outcome (answer : nat -> FetchResult) (events : list Event)
    (p : Poller) :
  pollHandle (page p) = true ->
  promise (page p) = None ->
  promise (page (awaitSettled answer events p))
  = firstOutcome (map answer (arrivals answer events p))
  /\ pollHandle (page (awaitSettled answer events p))
     = match firstOutcome (map answer (arrivals answer events p)) with
       | Some _ => false
       | None => true
       end
  /\ errorMessage (page (awaitSettled answer events p))
     = match firstOutcome (map answer (arrivals answer events p)) with
       | Some (rejected m) => m
       | _ => errorMessage (page p)
       end
  /\ statusMessage (page (awaitSettled answer events p))
     = match firstOutcome (map answer (arrivals answer events p)) with
       | Some resolved => completedMessage
       | _ => statusMessage (page p)
       end
  /\ jobId <$> currentJob (processingStore (page (awaitSettled answer events p)))
     = jobId <$> currentJob (processingStore (page p)).
Proof.
  revert p. induction events as [| e events IH]; intros p Hh Hp.
  - cbn. rewrite Hh, Hp. repeat split; reflexivity.
  - cbn [awaitSettled arrivals]. destruct e as [| k].
    + cbn [step]. rewrite Hh. cbn [page]. rewrite Hp.
      apply (IH {| page := page p; started := S (started p);
                   waiting := waiting p ++ [started p] |}); assumption.
    + cbn [step]. destruct (awaited k p) eqn:Hk; cbn [page].
      * destruct (fetchStatus_outcome (answer k) (page p)) as (F1 & F2 & F3 & F4).
        rewrite Hp in F1. rewrite Hh in F2.
        cbn [map firstOutcome]. rewrite F1.
        destruct (outcome (answer k)) as [o |] eqn:Hout.
        -- cbn [page]. rewrite F1, F2, F3, F4, fetchStatus_jobId.
           destruct o; repeat split; reflexivity.
        -- destruct (IH {| page := fetchStatus (answer k) (page p);
                           started := started p;
                           waiting := List.filter (fun j => negb (k =? j)%nat)
                                                  (waiting p) |} F2 F1)
             as (I1 & I2 & I3 & I4 & I5).
           cbn [page] in *. rewrite I1, I2, I3, I4, I5, F3, F4, fetchStatus_jobId.
           repeat split; reflexivity.
      * rewrite Hp. by apply IH.
Qed.

Lemma awaitSettled_resolved (answer : nat -> FetchResult) (events : list Event)
    (p : Poller) (job : ProcessingJob) :
  pollHandle (page p) = true ->
  promise (page p) = None ->
  currentJob (processingStore (page p)) = Some job ->
  firstOutcome (map answer (arrivals answer events p)) = Some resolved ->
  exists k status,
    k ∈ arrivals answer events p /\ answer k = fetched status
    /\ Status.state status = completed
    /\ exists job', currentJob (processingStore (page (awaitSettled answer events p)))
                    = Some (mirrored job' status)
                    /\ jobId job' = jobId job.
Proof.
  revert p job. induction events as [| e events IH]; intros p job Hh Hp Hjob;
    [discriminate |].
  cbn [awaitSettled arrivals]. destruct e as [| k].
  - cbn [step]. rewrite Hh. cbn [page]. rewrite Hp.
    apply (IH {| page := page p; started := S (started p);
                 waiting := waiting p ++ [started p] |}); assumption.
  - cbn [step]. destruct (awaited k p) eqn:Hk; cbn [page].
    + destruct (fetchStatus_outcome (answer k) (page p)) as (F1 & F2 & _).
      rewrite Hp in F1. rewrite Hh in F2. rewrite F1.
      cbn [map firstOutcome].
      destruct (outcome (answer k)) as [o |] eqn:Hout.
      * intros [= ->]. destruct (answer k) as [status | error] eqn:Hans;
          cbn in Hout; [| discriminate].
        exists k, status. destruct (Status.state status) eqn:Hs; try discriminate.
        split; [apply list_elem_of_here |]. split; [exact Hans |].
        split; [reflexivity |]. exists job. cbn [page].
        split; [by apply fetchStatus_job | reflexivity].
      * intros Hres. destruct (answer k) as [status | error] eqn:Hans;
          cbn in Hout; [| discriminate].
        destruct (IH {| page := fetchStatus (fetched status) (page p);
                        started := started p;
                        waiting := List.filter (fun j => negb (k =? j)%nat)
                                               (waiting p) |}
                     (mirrored job status) F2 F1)
          as (k' & status' & Hin & Hans' & Hs & job' & Hcur & Hid);
          [by apply fetchStatus_job | exact Hres |].
        exists k', status'. split; [by apply list_elem_of_further |].
        split; [exact Hans' |]. split; [exact Hs |].
        exists job'. split; [exact Hcur | exact Hid].
    + rewrite Hp. by apply IH.
Qed.

End RunLaws.

(** Two requests are outstanding when the first answer, [running], comes
    in; the second reports a failure with a message of its own. *)
Lemma pollJob_rejection_message_witness :
  (exists k status,
      k ∈ arrivals (reports MoreSamples.failingStatus) [tick; arrival 0; arrival 1]
            (polling Samples.startedPage)
      /\ reports MoreSamples.failingStatus k = fetched status
      /\ Status.state status = failed
      /\ nonEmptyString (JSString "ffmpeg failed")
      /\ (forall text, Status.message status = Some text -> text <> "" ->
          JSString "ffmpeg failed" = JSString text))
  \/ (exists k error,
        k ∈ arrivals (reports MoreSamples.failingStatus) [tick; arrival 0; arrival 1]
              (polling Samples.startedPage)
        /\ reports MoreSamples.failingStatus k = threw error
        /\ JSString "ffmpeg failed" = extractErrorMessage error).
Proof.
  exact (pollJob_rejection_message (reports MoreSamples.failingStatus)
           [tick; arrival 0; arrival 1] Samples.startedPage
           (JSString "ffmpeg failed") eq_refl).
Defined.

(** ** The blur level *)

(** The literal: of the two binary64 neighbours of 11/5, [lit_2_2] is the
    nearer one (it lies 2/(5 * 2^51) above, the other 3/(5 * 2^51) below). *)
Example lit_2_2_nearest :
  lit_2_2 = S754_finite false 4953959590107546 (-51)
  /\ 5 * 4953959590107546 - 11 * 2 ^ 51 = 2
  /\ 11 * 2 ^ 51 - 5 * 4953959590107545 = 3.
Proof. repeat split. Qed.

(** On the levels of the range input the floating-point evaluation of
    [Math.round(level * 2.2 + 1)] agrees with exact arithmetic:
    the rounding errors of [2.2], of the product and of the sum never carry
    the value across a half. *)
Lemma previewBlurPx_exact (level : Z) :
  1 <= level <= 10 -> previewBlurPx level = (22 * level + 15) / 10.
Proof.
  intros H.
  assert (Hl : level = 1 \/ level = 2 \/ level = 3 \/ level = 4 \/ level = 5
               \/ level = 6 \/ level = 7 \/ level = 8 \/ level = 9 \/ level = 10) by lia.
  repeat (destruct Hl as [-> | Hl]); try subst level; vm_compute; reflexivity.
Qed.

(** On these levels [Math.round] is reached with a finite number. *)
Lemma previewBlurPx_argument_finite (level : Z) :
  1 <= level <= 10 ->
  Number_isFinite (JSNumber (add (mul (number_of_Z level) lit_2_2) (number_of_Z 1)))
  = true.
Proof.
  intros H.
  assert (Hl : level = 1 \/ level = 2 \/ level = 3 \/ level = 4 \/ level = 5
               \/ level = 6 \/ level = 7 \/ level = 8 \/ level = 9 \/ level = 10) by lia.
  repeat (destruct Hl as [-> | Hl]); try subst level; vm_compute; reflexivity.
Qed.

Example previewBlurPx_table :
  map previewBlurPx [1; 2; 3; 4; 5; 6; 7; 8; 9; 10]
  = [3; 5; 8; 10; 12; 14; 16; 19; 21; 23].
Proof. vm_compute. reflexivity. Qed.

Lemma previewBlurPx_le (a b : Z) :
  1 <= a -> a <= b -> b <= 10 -> previewBlurPx a <= previewBlurPx b.
Proof.
  intros Ha Hab Hb.
  rewrite !previewBlurPx_exact by lia.
  apply Z.div_le_mono; lia.
Qed.

Lemma previewBlurPx_lt (a b : Z) :
  1 <= a -> a < b -> b <= 10 -> previewBlurPx a < previewBlurPx b.
Proof.
  intros Ha Hab Hb.
  apply Z.lt_le_trans with (previewBlurPx (a + 1)).
  - rewrite !previewBlurPx_exact by lia.
    replace (22 * (a + 1) + 15) with (22 * a + 15 + 2 * 10 + 2) by lia.
    pose proof (Z.div_le_mono (22 * a + 15 + 2 * 10) (22 * a + 15 + 2 * 10 + 2) 10).
    rewrite Z.div_add in H by lia. lia.
  - apply previewBlurPx_le; lia.
Qed.

(** X5. The blur radius of the preview grows with the blur level over the
    levels 1 to 10 of the range input: a higher level never gives a smaller
    radius, and a larger level gives a larger one. *)
Theorem previewBlurPx_increasing (a b : Z) :
  1 <= a -> a <= b -> b <= 10 ->
  previewBlurPx a <= previewBlurPx b
  /\ (a < b -> previewBlurPx a < previewBlurPx b).
Proof.
  intros Ha Hab Hb. split; [by apply previewBlurPx_le |].
  intros Hlt. by apply previewBlurPx_lt.
Qed.

Lemma previewBlurPx_increasing_witness :
  previewBlurPx 3 <= previewBlurPx 7 /\ previewBlurPx 3 < previewBlurPx 7.
Proof.
  pose proof (previewBlurPx_increasing 3 7) as H.
  split; [apply H; lia | apply H; lia].
Defined.

(** ** Numbers on display *)

Section NumberLaws.
Import Numbers.

(** [Math.round] on any scale [2 ^ k] below the exponent and below 1. *)
Lemma Math_round_scaled (x : spec_float) (k : Z) :
  k <= exponent x -> k <= 0 ->
  Math_round x
  = (2 * (mantissa x * 2 ^ (exponent x - k)) + 2 ^ (- k)) / 2 ^ (1 - k).
Proof.
  intros Hk H0.
  assert (Hpow : 2 ^ (1 - k) = 2 * 2 ^ (- k)).
  { replace (1 - k) with (Z.succ (- k)) by lia. apply Z.pow_succ_r. lia. }
  assert (Hpos : 0 < 2 ^ (- k)) by (apply Z.pow_pos_nonneg; lia).
  destruct x as [s | s | | s m e]; cbn [mantissa exponent Math_round] in *.
  1-3: rewrite Z.mul_0_l, Z.mul_0_r, Z.add_0_l; symmetry; apply Z.div_small; lia.
  set (n := cond_Zopp s (Z.pos m)).
  destruct (Z.leb_spec 0 e) as [He | He].
  - replace (2 ^ (e - k)) with (2 ^ e * 2 ^ (- k))
      by (rewrite <- Z.pow_add_r by lia; f_equal; lia).
    replace (2 * (n * (2 ^ e * 2 ^ (- k))) + 2 ^ (- k))
      with (n * 2 ^ e * 2 ^ (1 - k) + 2 ^ (- k)) by (rewrite Hpow; ring).
    rewrite Z.div_add_l by lia.
    rewrite (Z.div_small (2 ^ (- k))) by lia. lia.
  - assert (Hs : 2 ^ (- k) = 2 ^ (- e) * 2 ^ (e - k))
      by (rewrite <- Z.pow_add_r by lia; f_equal; lia).
    assert (Hs1 : 2 ^ (1 - k) = 2 ^ (1 - e) * 2 ^ (e - k))
      by (rewrite <- Z.pow_add_r by lia; f_equal; lia).
    assert (Hq : 0 < 2 ^ (e - k)) by (apply Z.pow_pos_nonneg; lia).
    assert (Hq1 : 0 < 2 ^ (1 - e)) by (apply Z.pow_pos_nonneg; lia).
    rewrite Hs1, Hs.
    replace (2 * (n * 2 ^ (e - k)) + 2 ^ (- e) * 2 ^ (e - k))
      with ((2 * n + 2 ^ (- e)) * 2 ^ (e - k)) by ring.
    rewrite Z.div_mul_cancel_r by lia. reflexivity.
Qed.

Lemma Math_round_monotone (x y : spec_float) :
  finite_le x y -> Math_round x <= Math_round y.
Proof.
  unfold finite_le, commonScale. intros Hle.
  set (k := Z.min (Z.min (exponent x) (exponent y)) 0) in *.
  rewrite (Math_round_scaled x k), (Math_round_scaled y k) by lia.
  apply Z.div_le_mono; [apply Z.pow_pos_nonneg; lia | lia].
Qed.

(** X6. The displayed progress follows the order of the stored values: of
    two finite numbers, the larger is never displayed as the smaller
    percentage.  Rounding and clamping keep the order. *)
Theorem displayProgress_monotone (x y : spec_float) :
  Number_isFinite (JSNumber x) = true ->
  Number_isFinite (JSNumber y) = true ->
  finite_le x y ->
  displayProgress_of (JSNumber x) <= displayProgress_of (JSNumber y).
Proof.
  intros Hx Hy Hle.
  pose proof (Math_round_monotone x y Hle) as Hr.
  rewrite !displayProgress_of_number.
  destruct x; try discriminate Hx; destruct y; try discriminate Hy; lia.
Qed.

(** X7. A whole percentage between 0 and 100 is displayed as it is. *)
Theorem displayProgress_whole_percent (n : Z) :
  0 <= n <= 100 ->
  displayProgress_of (JSNumber (number_of_Z n)) = n.
Proof.
  intros H.
  assert (Hall : forallb (fun z => displayProgress_of (JSNumber (number_of_Z z)) =? z)
                         (map Z.of_nat (seq 0 101)) = true) by (vm_compute; reflexivity).
  rewrite forallb_forall in Hall.
  apply Z.eqb_eq, Hall, in_map_iff. exists (Z.to_nat n).
  split; [lia |]. apply in_seq. lia.
Qed.

(** X8. Over the levels 1 to 10 of the range input, the percentage shown
    beside the level is exactly ten times the level, no rounding error in
    the product, and the blur radius of the preview stays between 3 and 23
    pixels. *)
Theorem preview_values_exact (level : Z) :
  1 <= level <= 10 ->
  previewLevel level = number_of_Z (10 * level)
  /\ 3 <= previewBlurPx level <= 23.
Proof.
  intros H. rewrite previewBlurPx_exact by exact H. split.
  - assert (Hl : level = 1 \/ level = 2 \/ level = 3 \/ level = 4 \/ level = 5
               \/ level = 6 \/ level = 7 \/ level = 8 \/ level = 9 \/ level = 10) by lia.
    repeat (destruct Hl as [-> | Hl]); try subst level; vm_compute; reflexivity.
  - split.
    + apply Z.div_le_lower_bound; lia.
    + enough ((22 * level + 15) / 10 < 24) by lia.
      apply Z.div_lt_upper_bound; lia.
Qed.

End NumberLaws.

(** 12.5 and 13 are both displayed as 13. *)
Lemma displayProgress_monotone_witness :
  displayProgress_of (JSNumber MoreSamples.twelveAndHalf)
  <= displayProgress_of (JSNumber (number_of_Z 13)).
Proof.
  apply (displayProgress_monotone MoreSamples.twelveAndHalf (number_of_Z 13)).
  - reflexivity.
  - reflexivity.
  - vm_compute. discriminate.
Defined.

Lemma displayProgress_whole_percent_witness :
  displayProgress_of (JSNumber (number_of_Z 37)) = 37.
Proof. apply (displayProgress_whole_percent 37). lia. Defined.

Lemma preview_values_exact_witness :
  Numbers.previewLevel 5 = number_of_Z 50 /\ 3 <= previewBlurPx 5 <= 23.
Proof. apply (preview_values_exact 5). lia. Defined.

(** ** The reference images *)

Section ReferenceLaws.
Import References.

Lemma list_find_id_cons (i : string) (x : ReferenceItem) (l : list ReferenceItem) :
  list_find (fun item => id item = i) (x :: l)
  = if decide (id x = i) then Some (0%nat, x)
    else prod_map S (fun y => y) <$> list_find (fun item => id item = i) l.
Proof. reflexivity. Qed.

Lemma without_cons (i : string) (x : ReferenceItem) (l : list ReferenceItem) :
  without i (x :: l) = if decide (id x = i) then l else x :: without i l.
Proof.
  unfold without. rewrite list_find_id_cons.
  destruct (decide (id x = i)); [reflexivity |].
  destruct (list_find (fun item => id item = i) l) as [[index y] |]; reflexivity.
Qed.

Lemma without_absent (i : string) (l : list ReferenceItem) :
  i ∉ map id l -> without i l = l.
Proof.
  induction l as [| x l IH]; [reflexivity |].
  rewrite without_cons. cbn [map]. intros Hnot.
  apply not_elem_of_cons in Hnot as [Hx Hl].
  destruct (decide (id x = i)); [congruence |]. f_equal. now apply IH.
Qed.

Lemma without_filter (i : string) (l : list ReferenceItem) :
  NoDup (map id l) -> without i l = filter (fun item => id item ≠ i) l.
Proof.
  induction l as [| x l IH]; [reflexivity |].
  cbn [map]. intros Hnd. apply NoDup_cons in Hnd as [Hx Hnd].
  rewrite without_cons, filter_cons.
  destruct (decide (id x = i)) as [<- | Hne].
  - destruct (decide (id x ≠ id x)) as [Hbad |]; [now exfalso; apply Hbad |].
    rewrite <- IH by exact Hnd. symmetry. now apply without_absent.
  - destruct (decide (id x ≠ i)) as [| Hbad]; [| now exfalso; apply Hbad].
    f_equal. now apply IH.
Qed.

Lemma removeReference_faces (i : string) (st : RefState) :
  referenceFaces (removeReference i st) = without i (referenceFaces st).
Proof.
  unfold removeReference, without.
  destruct (list_find (fun item => id item = i) (referenceFaces st)) as [[index y] |];
    reflexivity.
Qed.

(** X9. While the ids of the listed items are distinct, [removeReference]
    removes the item with the given id and nothing else: the list that is
    left is the list filtered on the other ids; an id that is not listed
    leaves the list and the object URLs as they were; a listed one shortens
    the list by one. *)
Theorem removeReference_removes (i : string) (st : RefState) :
  NoDup (map id (referenceFaces st)) ->
  referenceFaces (removeReference i st)
  = filter (fun item => id item ≠ i) (referenceFaces st)
  /\ (i ∉ map id (referenceFaces st) -> removeReference i st = st)
  /\ (i ∈ map id (referenceFaces st) ->
      S (length (referenceFaces (removeReference i st))) = length (referenceFaces st)).
Proof.
  intros Hnd. split; [| split].
  - rewrite removeReference_faces. now apply without_filter.
  - intros Hnot. unfold removeReference.
    destruct (list_find (fun item => id item = i) (referenceFaces st))
      as [[index y] |] eqn:Hfind; [| reflexivity].
    apply list_find_Some in Hfind as (Hlook & Hid & _).
    exfalso. apply Hnot. apply list_elem_of_fmap. exists y. split; [now symmetry |].
    now apply list_elem_of_lookup_2 in Hlook.
  - intros Hin. unfold removeReference.
    destruct (list_find (fun item => id item = i) (referenceFaces st))
      as [[index y] |] eqn:Hfind.
    + cbn. apply list_find_Some in Hfind as (Hlook & _ & _).
      rewrite length_delete by eauto.
      apply lookup_lt_Some in Hlook. lia.
    + exfalso. apply list_elem_of_fmap in Hin as (y & Hy & Hin).
      eapply list_find_None in Hfind. rewrite Forall_forall in Hfind.
      apply (Hfind y); [exact Hin | now symmetry].
Qed.

Lemma list_find_split (i : string) (l : list ReferenceItem) (index : nat)
    (y : ReferenceItem) :
  list_find (fun item => id item = i) l = Some (index, y) ->
  exists l1 l2, l = (l1 ++ y :: l2)%list /\ delete index l = (l1 ++ l2)%list /\ id y = i.
Proof.
  intros Hfind. apply list_find_Some in Hfind as (Hlook & Hid & _).
  exists (take index l), (drop (S index) l).
  pose proof (take_drop_middle l index y Hlook) as Hl.
  split; [now symmetry |]. split; [| exact Hid].
  rewrite <- Hl at 1.
  replace index with (length (take index l)) at 1.
  - apply delete_middle.
  - rewrite length_take. apply lookup_lt_Some in Hlook. lia.
Qed.

Lemma removeReference_tracked_step (i : string) (st : RefState) :
  tracked st -> tracked (removeReference i st).
Proof.
  intros [Hnd Hset]. unfold removeReference.
  destruct (list_find (fun item => id item = i) (referenceFaces st))
    as [[index y] |] eqn:Hfind; [| now split].
  apply list_find_split in Hfind as (l1 & l2 & Hl & Hdel & _).
  unfold tracked. cbn [referenceFaces objectUrls]. rewrite Hdel, Hset, Hl.
  rewrite Hl in Hnd. rewrite !map_app in *. cbn [map] in *.
  apply NoDup_app in Hnd as (Hnd1 & Hsep & Hnd2).
  apply NoDup_cons in Hnd2 as [Hy Hnd2].
  split.
  - apply NoDup_app. split; [exact Hnd1 |]. split; [| exact Hnd2].
    intros x Hx Hx2. apply (Hsep x Hx). now right.
  - apply set_eq. intros x.
    rewrite elem_of_difference, !elem_of_list_to_set, !elem_of_app, elem_of_cons,
      elem_of_singleton.
    split.
    + intros [[H1 | [Heq | H2]] Hne]; [now left | contradiction | now right].
    + intros [H1 | H2].
      * split; [now left |]. intros ->. apply (Hsep _ H1). now left.
      * split; [right; now right |]. intros ->. contradiction.
Qed.

Lemma uploadReference_tracked_step (fs : list Picked) (st : RefState) :
  tracked st ->
  NoDup (map objectUrl fs) ->
  (forall p, p ∈ fs -> objectUrl p ∉ objectUrls st) ->
  tracked (uploadReference (Some fs) st).
Proof.
  intros [Hnd Hset] Hfresh Hnew. unfold uploadReference.
  destruct fs as [| p fs']; [now split |].
  set (fs := p :: fs') in *.
  assert (Hurls : map previewUrl (map createReferenceItem fs) = map objectUrl fs).
  { rewrite map_map. reflexivity. }
  unfold tracked. cbn [referenceFaces objectUrls].
  rewrite map_app, Hurls. split.
  - apply NoDup_app. split; [exact Hnd |]. split; [| exact Hfresh].
    intros x Hx Hx2. apply list_elem_of_fmap in Hx2 as (q & -> & Hq).
    apply (Hnew q Hq). rewrite Hset. now apply elem_of_list_to_set.
  - rewrite list_to_set_app_L, Hset. reflexivity.
Qed.


(** X10. [uploadReference] keeps the object URLs in step with the list: when
    the URLs the browser hands out for the new files are distinct and not
    in use, the URLs held are again those of the listed items, one each.
    The new items come after the old ones, in the order of the files, and
    a [null] file list changes nothing. *)
Theorem uploadReference_tracked (fs : list Picked) (st : RefState) :
  tracked st ->
  NoDup (map objectUrl fs) ->
  (forall p, p ∈ fs -> objectUrl p ∉ objectUrls st) ->
  tracked (uploadReference (Some fs) st)
  /\ referenceFaces (uploadReference (Some fs) st)
     = (referenceFaces st ++ map createReferenceItem fs)%list
  /\ uploadReference None st = st.
Proof.
  intros Ht Hnd Hnew. split; [now apply uploadReference_tracked_step |].
  split; [| reflexivity].
  destruct fs; cbn; [now rewrite app_nil_r | reflexivity].
Qed.

(** X11. [removeReference] keeps the object URLs in step with the list: it
    revokes the URL of the item it removes and no other, so that every item
    still listed has its URL alive and no URL is added. *)
Theorem removeReference_tracked (i : string) (st : RefState) :
  tracked st ->
  tracked (removeReference i st)
  /\ objectUrls (removeReference i st) ⊆ objectUrls st
  /\ (forall item, item ∈ referenceFaces (removeReference i st) ->
      previewUrl item ∈ objectUrls (removeReference i st)).
Proof.
  intros Ht. pose proof (removeReference_tracked_step i st Ht) as Ht'.
  split; [exact Ht' |]. split.
  - unfold removeReference.
    destruct (list_find (fun item => id item = i) (referenceFaces st))
      as [[index y] |]; cbn; [| reflexivity].
    intros u Hu. now apply elem_of_difference in Hu as [Hu _].
  - intros item Hin. destruct Ht' as [_ ->].
    apply elem_of_list_to_set. apply list_elem_of_fmap. now exists item.
Qed.

(** X12. Removing a reference image that was just added, alone, with a
    fresh id and a fresh object URL, gives back the state before the
    upload: the list and the URLs held. *)
Theorem upload_remove_round_trip (p : Picked) (st : RefState) :
  uid p ∉ map id (referenceFaces st) ->
  objectUrl p ∉ objectUrls st ->
  removeReference (uid p) (uploadReference (Some [p]) st) = st.
Proof.
  intros Hid Hurl. unfold removeReference, uploadReference.
  cbn [referenceFaces objectUrls map].
  assert (Hfind : list_find (fun item => id item = uid p)
                    (referenceFaces st ++ [createReferenceItem p])%list
                  = Some (length (referenceFaces st), createReferenceItem p)).
  { apply list_find_Some. split; [| split; [reflexivity |]].
    - rewrite lookup_app_r by lia. now rewrite Nat.sub_diag.
    - intros j y Hlook Hlt Hy. apply Hid.
      rewrite lookup_app_l in Hlook by exact Hlt.
      apply list_elem_of_fmap. exists y. split; [now symmetry |].
      now apply list_elem_of_lookup_2 in Hlook. }
  rewrite Hfind.
  replace (delete (length (referenceFaces st))
             (referenceFaces st ++ [createReferenceItem p])%list)
    with (referenceFaces st ++ [])%list by (symmetry; apply delete_middle).
  rewrite app_nil_r. destruct st as [faces urls]. cbn in *. f_equal.
  apply set_eq. intros u.
  rewrite elem_of_difference, !elem_of_union, elem_of_empty, elem_of_singleton.
  split; [tauto |]. intros Hu. split; [now left |]. now intros ->.
Qed.

(** X13. The preview never shows a revoked image: while the object URLs are
    in step with the list, [previewImageSrc] is the demo image when no
    reference is listed and otherwise a URL that is still alive. *)
Theorem previewImageSrc_live (st : RefState) :
  tracked st ->
  (referenceFaces st = [] /\ previewImageSrc st = "/demo-cat.jpg")
  \/ (referenceFaces st <> [] /\ previewImageSrc st ∈ objectUrls st).
Proof.
  intros [_ Hset]. unfold previewImageSrc.
  destruct (referenceFaces st) as [| item rest] eqn:Hfaces; [now left |].
  right. split; [discriminate |]. rewrite Hset. cbn.
  apply elem_of_union. left. now apply elem_of_singleton.
Qed.

End ReferenceLaws.

Lemma noReferences_tracked : References.tracked References.noReferences.
Proof. split; [constructor | reflexivity]. Qed.

Lemma twoReferences_tracked : References.tracked MoreSamples.twoReferences.
Proof.
  apply uploadReference_tracked_step.
  - exact noReferences_tracked.
  - apply (bool_decide_unpack _). vm_compute. exact I.
  - intros p _. apply not_elem_of_empty.
Qed.

(** "uid-1" is listed, "uid-9" is not. *)
Lemma removeReference_removes_witness :
  References.referenceFaces (References.removeReference "uid-1" MoreSamples.twoReferences)
  = [References.createReferenceItem MoreSamples.pickedProfile]
  /\ References.removeReference "uid-9" MoreSamples.twoReferences
     = MoreSamples.twoReferences.
Proof.
  assert (Hnd : NoDup (map References.id
                         (References.referenceFaces MoreSamples.twoReferences)))
    by (apply (bool_decide_unpack _); vm_compute; exact I).
  split.
  - exact (proj1 (removeReference_removes "uid-1" MoreSamples.twoReferences Hnd)).
  - apply (proj2 (removeReference_removes "uid-9" MoreSamples.twoReferences Hnd)).
    apply (bool_decide_unpack _). vm_compute. exact I.
Defined.

Lemma uploadReference_tracked_witness :
  References.tracked MoreSamples.twoReferences
  /\ References.referenceFaces MoreSamples.twoReferences
     = map References.createReferenceItem
         [MoreSamples.pickedPortrait; MoreSamples.pickedProfile].
Proof.
  assert (Hnd : NoDup (map References.objectUrl
                         [MoreSamples.pickedPortrait; MoreSamples.pickedProfile]))
    by (apply (bool_decide_unpack _); vm_compute; exact I).
  destruct (uploadReference_tracked
              [MoreSamples.pickedPortrait; MoreSamples.pickedProfile]
              References.noReferences noReferences_tracked Hnd
              (fun p _ => not_elem_of_empty (References.objectUrl p)))
    as (Ht & Hfaces & _).
  split; [exact Ht | exact Hfaces].
Defined.

Lemma removeReference_tracked_witness :
  References.tracked (References.removeReference "uid-1" MoreSamples.twoReferences)
  /\ References.objectUrls (References.removeReference "uid-1" MoreSamples.twoReferences)
     ⊆ References.objectUrls MoreSamples.twoReferences.
Proof.
  destruct (removeReference_tracked "uid-1" MoreSamples.twoReferences
              twoReferences_tracked) as (Ht & Hsub & _).
  split; [exact Ht | exact Hsub].
Defined.

(** The profile picture is added to the portrait, and removed again. *)
Lemma upload_remove_round_trip_witness :
  References.removeReference "uid-2"
    (References.uploadReference (Some [MoreSamples.pickedProfile])
       (References.uploadReference (Some [MoreSamples.pickedPortrait])
          References.noReferences))
  = References.uploadReference (Some [MoreSamples.pickedPortrait]) References.noReferences.
Proof.
  apply (upload_remove_round_trip MoreSamples.pickedProfile
           (References.uploadReference (Some [MoreSamples.pickedPortrait])
              References.noReferences)).
  - apply (bool_decide_unpack _). vm_compute. exact I.
  - apply (bool_decide_unpack _). vm_compute. exact I.
Defined.

Lemma previewImageSrc_live_witness :
  (References.referenceFaces MoreSamples.twoReferences = []
   /\ References.previewImageSrc MoreSamples.twoReferences = "/demo-cat.jpg")
  \/ (References.referenceFaces MoreSamples.twoReferences <> []
      /\ References.previewImageSrc MoreSamples.twoReferences
         ∈ References.objectUrls MoreSamples.twoReferences).
Proof. exact (previewImageSrc_live MoreSamples.twoReferences twoReferences_tracked). Defined.

(** ** Starting a job *)

Section ProcessingLaws.
Import Run References Processing.

Variable toString : JSValue -> string.




Lemma guard_passes (app : AppState) (video : File) :
  referenceFaces (references app) <> [] ->
  targetVideo app = Some video ->
  Nat.eqb (length (referenceFaces (references app))) 0
  || negb (bool_decide (is_Some (targetVideo app))) = false.
Proof.
  intros Hfaces Hvideo. rewrite Hvideo.
  destruct (referenceFaces (references app)); [contradiction | reflexivity].
Qed.




(** The page [pollJob] is called on, by [startProcessing]. *)
Lemma arrivals_started (answer : nat -> FetchResult) (events : list Event)
    (pg pg' : PageState) :
  arrivals answer events (polling pg) = arrivals answer events (polling pg').
Proof. by apply arrivals_page. Qed.

(** X15. How [startProcessing] leaves the page, once a reference image is
    listed and a video chosen.  When both requests return and the polling
    run resolves, the button is released, the interval cleared, the
    completion message shown with no error, and the store holds the job
    that was created, with what the [completed] answer reported.  While the
    run is pending the button stays disabled, the interval set and the
    created job in the store.  In every other case (a request failed, or
    the run was rejected) the button is released, the interval cleared, no
    status message shown and the store emptied. *)
Theorem startProcessing_outcome (upload : Await unit)
    (submit : Await Created.JobCreatedResponse)
    (answer : nat -> FetchResult) (events : list Event)
    (app : AppState) (video : File) :
  referenceFaces (references app) <> [] ->
  targetVideo app = Some video ->
  let app' := startProcessing toString upload submit answer events app in
  let page' := pageState app' in
  match upload, submit,
        firstOutcome (map answer (arrivals answer events (polling (pageState app)))) with
  | returned _, returned job, Some resolved =>
      isProcessing app' = false
      /\ pollHandle page' = false
      /\ statusMessage page' = completedMessage
      /\ errorMessage page' = JSString ""
      /\ exists k status job',
           k ∈ arrivals answer events (polling (pageState app))
           /\ answer k = fetched status /\ Status.state status = completed
           /\ currentJob (processingStore page') = Some (mirrored job' status)
           /\ jobId job' = Created.job_id job
  | returned _, returned job, None =>
      isProcessing app' = true
      /\ pollHandle page' = true
      /\ statusMessage page' = ""
      /\ errorMessage page' = JSString ""
      /\ jobId <$> currentJob (processingStore page') = Some (Created.job_id job)
  | _, _, _ =>
      isProcessing app' = false
      /\ pollHandle page' = false
      /\ statusMessage page' = ""
      /\ currentJob (processingStore page') = None
  end.
Proof.
  intros Hfaces Hvideo. cbv zeta. unfold startProcessing.
  rewrite (guard_passes app video Hfaces Hvideo). cbv zeta.
  destruct upload as [u | error].
  2: { unfold finallyBlock, catchBlock. destruct (negb _); cbn; repeat split; reflexivity. }
  destruct submit as [job | error].
  2: { unfold finallyBlock, catchBlock. destruct (negb _); cbn; repeat split; reflexivity. }
  cbn [pageState with_page post set_isProcessing].
  match goal with
  | |- context [awaitSettled answer events (polling ?pg)] =>
      rewrite (arrivals_started answer events (pageState app) pg);
      destruct (awaitSettled_outcome answer events (polling pg) eq_refl eq_refl)
        as (Hp & Hh & He & Hs & Hid);
      pose proof (awaitSettled_resolved answer events (polling pg)
                    (newJob (Created.job_id job) (Created.state job))
                    eq_refl eq_refl eq_refl) as Hres
  end.
  rewrite Hp.
  destruct (firstOutcome (map answer (arrivals answer events _))) as [[| m] |].
  - unfold finallyBlock.
    cbn [set_isProcessing pageState isProcessing with_page post].
    rewrite Hh, He, Hs. repeat (split; [reflexivity |]).
    destruct (Hres eq_refl) as (k & status & Hin & Hans & Hst & job' & Hcur & Hjid).
    exists k, status, job'. repeat split; assumption.
  - unfold finallyBlock, catchBlock. destruct (negb _);
      cbn [set_isProcessing pageState isProcessing with_page post with_store
           set_errorMessage pollHandle statusMessage processingStore clearJob currentJob];
      rewrite ?Hh, ?Hs; repeat split; reflexivity.
  - cbn [set_isProcessing pageState isProcessing with_page post].
    rewrite Hh, He, Hs, Hid. repeat split; reflexivity.
Qed.

Lemma strictEq_string (v : JSValue) (s : string) :
  strictEq v (JSString s) = true <-> v = JSString s.
Proof.
  destruct v; cbn; try (split; [discriminate | discriminate]).
  rewrite String.eqb_eq. split; [now intros -> | now intros [= ->]].
Qed.

(** X16. The error shown when a request of [startProcessing] fails.  When
    the upload of the references or the submission of the job throws, the
    error message is what [extractErrorMessage] makes of the thrown value;
    except for an [Error] whose message is the empty string, which the
    [catch] block takes for one already shown: the message then stays
    empty, and the page shows no error at all. *)
Theorem startProcessing_request_error (upload : Await unit)
    (submit : Await Created.JobCreatedResponse)
    (answer : nat -> FetchResult) (events : list Event)
    (app : AppState) (video : File) (error : JSValue) :
  referenceFaces (references app) <> [] ->
  targetVideo app = Some video ->
  upload = failedWith error
  \/ ((exists u, upload = returned u) /\ submit = failedWith error) ->
  let shown :=
    errorMessage
      (pageState (startProcessing toString upload submit answer events app)) in
  (instanceofError error = false \/ inheritedMessage error <> JSString "" ->
   shown = extractErrorMessage error)
  /\ (instanceofError error = true -> inheritedMessage error = JSString "" ->
      shown = JSString "").
Proof.
  intros Hfaces Hvideo Hfail. cbv zeta. unfold startProcessing.
  rewrite (guard_passes app video Hfaces Hvideo). cbv zeta.
  assert (Hcatch : forall a, errorMessage (pageState a) = JSString "" ->
            let shown := errorMessage (pageState (finallyBlock (catchBlock error a))) in
            (instanceofError error = false \/ inheritedMessage error <> JSString "" ->
             shown = extractErrorMessage error)
            /\ (instanceofError error = true -> inheritedMessage error = JSString "" ->
                shown = JSString "")).
  { intros a Ha. cbv zeta. unfold finallyBlock, catchBlock. rewrite Ha.
    destruct (instanceofError error); cbn [andb negb].
    - destruct (strictEq (inheritedMessage error) (JSString "")) eqn:Heq.
      + apply strictEq_string in Heq. split.
        * intros [H | H]; [discriminate | contradiction].
        * intros _ _. exact Ha.
      + split; [reflexivity |]. intros _ H. apply strictEq_string in H. congruence.
    - split; [reflexivity | discriminate]. }
  destruct Hfail as [-> | [[u ->] ->]]; apply Hcatch; reflexivity.
Qed.

Lemma extractErrorMessage_newError (m : JSValue) :
  (forall text, m <> JSString text) ->
  exists s, extractErrorMessage (newError toString m) = JSString s /\ s <> "".
Proof.
  intros Hm. unfold extractErrorMessage, newError.
  cbn [truthy typeof negb String.eqb Ascii.eqb Bool.eqb instanceofError andb get assoc
       default Datatypes.id].
  set (text := match m with
               | JSUndefined => ""
               | JSString s0 => s0
               | _ => toString m
               end).
  unfold js_or. cbn [truthy detailMessage].
  destruct (String.eqb_spec text "") as [Hempty | Hfull]; cbn [negb].
  - exists unknownErrorMessage. split; [reflexivity | discriminate].
  - exists text. split; [reflexivity | exact Hfull].
Qed.

Lemma catchBlock_newError (m : JSValue) (a : AppState) :
  errorMessage (pageState a) = m ->
  exists s,
    errorMessage (pageState (finallyBlock (catchBlock (newError toString m) a)))
    = JSString s
    /\ (forall text, m = JSString text -> s = text)
    /\ ((forall text, m <> JSString text) -> s <> "").
Proof.
  intros Ha. unfold finallyBlock, catchBlock. rewrite Ha.
  destruct (strictEq (inheritedMessage (newError toString m)) m) eqn:Heq.
  - cbn [newError instanceofError andb negb]. cbn.
    destruct m as [| | b | x | text | items | isError props]; try discriminate.
    cbn in Heq. apply String.eqb_eq in Heq.
    exists text. rewrite Ha. split; [reflexivity |].
    split; [now intros t [= ->] | intros H; now destruct (H text)].
  - assert (Hm : forall text, m <> JSString text).
    { intros text ->. cbn in Heq. rewrite String.eqb_refl in Heq. discriminate. }
    destruct (extractErrorMessage_newError m Hm) as (s & Hs & Hne).
    exists s. cbn [newError instanceofError andb negb].
    cbn - [extractErrorMessage newError].
    split; [exact Hs |]. split; [| intros _; exact Hne].
    intros text ->. now destruct (Hm text).
Qed.

(** X17. The error shown when the polling run is rejected is always a
    string: the message of the rejection itself when that is a string;
    and when [extractErrorMessage] handed [pollJob] something else (a
    numeric [message] of the payload, say), the [catch] block replaces it
    by a non-empty string, the text of the [Error] that carried it or the
    default message. *)
Theorem startProcessing_poll_error (job : Created.JobCreatedResponse)
    (answer : nat -> FetchResult) (events : list Event)
    (app : AppState) (video : File) (u : unit) (m : JSValue) :
  referenceFaces (references app) <> [] ->
  targetVideo app = Some video ->
  firstOutcome (map answer (arrivals answer events (polling (pageState app))))
  = Some (rejected m) ->
  exists s,
    errorMessage
      (pageState
         (startProcessing toString (returned u) (returned job) answer events app))
    = JSString s
    /\ (forall text, m = JSString text -> s = text)
    /\ ((forall text, m <> JSString text) -> s <> "").
Proof.
  intros Hfaces Hvideo Hout. unfold startProcessing.
  rewrite (guard_passes app video Hfaces Hvideo). cbv zeta.
  cbn [pageState with_page post set_isProcessing].
  match goal with
  | |- context [awaitSettled answer events (polling ?pg)] =>
      rewrite (arrivals_started answer events (pageState app) pg) in Hout;
      destruct (awaitSettled_outcome answer events (polling pg) eq_refl eq_refl)
        as (Hp & _ & He & _)
  end.
  rewrite Hp, Hout. rewrite Hout in He.
  apply catchBlock_newError. cbn [pageState with_page post]. exact He.
Qed.

(** X18. The form of [submitBlurJob] can be read back: over the levels 1
    to 10 of the range input, the [blur_level] entry is one decimal text
    that denotes the selected level; there is one [mode] entry, which
    names the selected mode and no other, and one [user_id]. *)
Theorem blurForm_decodes (app : AppState) :
  1 <= selectedBlur app <= 10 ->
  exists level,
    formTexts "blur_level" (blurForm app) = [level]
    /\ Z.of_int <$> NilZero.int_of_string level = Some (selectedBlur app)
    /\ formTexts "mode" (blurForm app) = [modeString (mode app)]
    /\ (forall m, modeString m = modeString (mode app) -> m = mode app)
    /\ formTexts "user_id" (blurForm app) = [userId].
Proof.
  intros H. exists (NilZero.string_of_int (Z.to_int (selectedBlur app))).
  assert (Htexts : forall key,
             formTexts key (blurForm app)
             = formTexts key
                 [("user_id", text userId);
                  ("mode", text (modeString (mode app)));
                  ("blur_level",
                   text (NilZero.string_of_int (Z.to_int (selectedBlur app))))]).
  { intros key. unfold blurForm, formTexts. rewrite omap_app.
    destruct (targetVideo app); cbn [omap]; now rewrite app_nil_r. }
  rewrite !Htexts. split; [reflexivity |]. split; [| split; [reflexivity | split]].
  - assert (Hl : selectedBlur app = 1 \/ selectedBlur app = 2 \/ selectedBlur app = 3
                 \/ selectedBlur app = 4 \/ selectedBlur app = 5 \/ selectedBlur app = 6
                 \/ selectedBlur app = 7 \/ selectedBlur app = 8 \/ selectedBlur app = 9
                 \/ selectedBlur app = 10) by lia.
    repeat (destruct Hl as [-> | Hl]); try rewrite Hl; reflexivity.
  - intros m. destruct m, (mode app); (reflexivity || discriminate).
  - reflexivity.
Qed.


End ProcessingLaws.

(** The run of the ready page: [running], then [completed]. *)
Lemma startProcessing_outcome_witness :
  let app' :=
    Processing.startProcessing MoreSamples.toString
      (Processing.returned tt) (Processing.returned MoreSamples.createdJob)
      (reports Samples.finishingStatus) [arrival 0; tick; arrival 1]
      MoreSamples.readyApp in
  Processing.isProcessing app' = false
  /\ pollHandle (Processing.pageState app') = false
  /\ statusMessage (Processing.pageState app') = completedMessage
  /\ errorMessage (Processing.pageState app') = JSString ""
  /\ exists k status job',
       k ∈ arrivals (reports Samples.finishingStatus) [arrival 0; tick; arrival 1]
             (polling (Processing.pageState MoreSamples.readyApp))
       /\ reports Samples.finishingStatus k = fetched status
       /\ Status.state status = completed
       /\ currentJob (processingStore (Processing.pageState app'))
          = Some (mirrored job' status)
       /\ jobId job' = "job-1".
Proof.
  apply (startProcessing_outcome MoreSamples.toString
           (Processing.returned tt) (Processing.returned MoreSamples.createdJob)
           (reports Samples.finishingStatus) [arrival 0; tick; arrival 1]
           MoreSamples.readyApp MoreSamples.clip).
  - discriminate.
  - reflexivity.
Defined.

(** The upload is refused with a validation payload. *)
Lemma startProcessing_request_error_witness :
  errorMessage
    (Processing.pageState
       (Processing.startProcessing MoreSamples.toString
          (Processing.failedWith Samples.validationPayload)
          (Processing.returned MoreSamples.createdJob)
          (reports Samples.finishingStatus) [] MoreSamples.readyApp))
  = extractErrorMessage Samples.validationPayload.
Proof.
  apply (startProcessing_request_error MoreSamples.toString
           (Processing.failedWith Samples.validationPayload)
           (Processing.returned MoreSamples.createdJob)
           (reports Samples.finishingStatus) [] MoreSamples.readyApp
           MoreSamples.clip Samples.validationPayload).
  - discriminate.
  - reflexivity.
  - left. reflexivity.
  - left. reflexivity.
Defined.

(** The status request throws a payload whose [message] is the number 42. *)
Lemma startProcessing_poll_error_witness :
  exists s,
    errorMessage
      (Processing.pageState
         (Processing.startProcessing MoreSamples.toString
            (Processing.returned tt) (Processing.returned MoreSamples.createdJob)
            (fun _ => threw Samples.numericMessagePayload) [arrival 0]
            MoreSamples.readyApp))
    = JSString s
    /\ (forall text, JSNumber (number_of_Z 42) = JSString text -> s = text)
    /\ ((forall text, JSNumber (number_of_Z 42) <> JSString text) -> s <> "").
Proof.
  apply (startProcessing_poll_error MoreSamples.toString MoreSamples.createdJob
           (fun _ => threw Samples.numericMessagePayload) [arrival 0]
           MoreSamples.readyApp MoreSamples.clip tt (JSNumber (number_of_Z 42))).
  - discriminate.
  - reflexivity.
  - reflexivity.
Defined.

Lemma blurForm_decodes_witness :
  exists level,
    Processing.formTexts "blur_level" (Processing.blurForm MoreSamples.readyApp) = [level]
    /\ Z.of_int <$> NilZero.int_of_string level = Some 5
    /\ Processing.formTexts "mode" (Processing.blurForm MoreSamples.readyApp) = ["fast"]
    /\ (forall m, Processing.modeString m = "fast" -> m = Processing.fast)
    /\ Processing.formTexts "user_id" (Processing.blurForm MoreSamples.readyApp)
       = ["demo-user"].
Proof. apply (blurForm_decodes MoreSamples.readyApp). cbn. lia. Defined.

(** ** The face registry *)

Section RegistryFacts.
Import Backend.
Context {Image Embedding : Type}.
Variable dominant_faces : Image -> list Embedding.

Lemma accept_one_face (image : Image) :
  is_Some (accept dominant_faces image) <-> one_face dominant_faces image = true.
Proof.
  unfold accept, one_face.
  destruct (dominant_faces image) as [| e [| e' l]]; cbn; split;
    intros H; try done; try (by eexists); by destruct H.
Qed.

Lemma accepted_length (images : list Image) :
  length (accepted dominant_faces images)
  = length (List.filter (one_face dominant_faces) images).
Proof.
  unfold accepted.
  induction images as [| image images IH]; [reflexivity |].
  cbn. pose proof (accept_one_face image) as Hacc.
  destruct (accept dominant_faces image) as [e |];
    destruct (one_face dominant_faces image); cbn.
  - by rewrite IH.
  - destruct Hacc as [Hacc _]. by discriminate Hacc.
  - destruct Hacc as [_ Hacc]. by destruct Hacc.
  - exact IH.
Qed.

Lemma filter_nil_Forall (images : list Image) :
  List.filter (one_face dominant_faces) images = []
  <-> Forall (fun image => one_face dominant_faces image = false) images.
Proof.
  induction images as [| image images IH]; cbn.
  - split; [constructor | reflexivity].
  - destruct (one_face dominant_faces image) eqn:H; split; intros HH.
    + discriminate HH.
    + inversion HH; congruence.
    + constructor; [assumption | by apply IH].
    + apply IH. by inversion HH.
Qed.

(** C6. [register] fails with [ValidationError] exactly when no image of
    the call was accepted, that is when no image shows exactly one dominant
    face; it fails with no other error; and when at least one image shows
    exactly one face the call succeeds and answers the number of such
    images, the others being skipped. *)
Theorem register_fails_iff_none_accepted (ttl now : nat) (user_id : string)
    (images : list Image)
    (registry : gmap string (ReferenceProfile (Embedding := Embedding))) :
  (register dominant_faces ttl now user_id images registry = Err ValidationError
   <-> Forall (fun image => one_face dominant_faces image = false) images)
  /\ (forall e, register dominant_faces ttl now user_id images registry = Err e ->
      e = ValidationError)
  /\ (Exists (fun image => one_face dominant_faces image = true) images ->
      exists registry',
        register dominant_faces ttl now user_id images registry
        = Ok (length (List.filter (one_face dominant_faces) images), registry')
        /\ (0 < length (List.filter (one_face dominant_faces) images))%nat).
Proof.
  pose proof (accepted_length images) as Hlen.
  unfold register.
  destruct (accepted dominant_faces images) as [| e new] eqn:Hacc.
  - assert (Hnone : List.filter (one_face dominant_faces) images = []).
    { destruct (List.filter (one_face dominant_faces) images);
        [reflexivity | discriminate Hlen]. }
    split; [| split].
    + split; [intros _; by apply filter_nil_Forall | reflexivity].
    + by intros e [= <-].
    + intros Hex. apply filter_nil_Forall in Hnone.
      apply Exists_exists in Hex as [image [Hin Hone]].
      rewrite Forall_forall in Hnone. specialize (Hnone image Hin). congruence.
  - split; [| split].
    + split; [discriminate |].
      intros Hall. apply filter_nil_Forall in Hall. rewrite Hall in Hlen.
      discriminate Hlen.
    + discriminate.
    + intros _. eexists. rewrite <- Hlen. split; [reflexivity | cbn; lia].
Qed.

(** After a successful call on a fresh or expired profile the accepted
    embeddings are what [lookup] finds, until the deadline. *)
Lemma register_then_lookup (ttl now : nat) (user_id : string) (images : list Image)
    (registry registry' : gmap string (ReferenceProfile (Embedding := Embedding)))
    (count : nat) :
  registry !! user_id = None ->
  (0 < ttl)%nat ->
  register dominant_faces ttl now user_id images registry = Ok (count, registry') ->
  lookup now user_id registry' = Ok (accepted dominant_faces images).
Proof.
  intros Hfresh Httl. unfold register, lookup. rewrite Hfresh.
  destruct (accepted dominant_faces images) as [| e new]; [discriminate |].
  intros [= <- <-]. rewrite lookup_insert_eq. unfold live. cbn [deadline embeddings].
  destruct (Nat.ltb_spec now (now + ttl)); [reflexivity | lia].
Qed.

End RegistryFacts.

(** Three reference images, with no face, one face and two faces: one is
    accepted.  A single image with no face: the call fails. *)
Lemma register_fails_iff_none_accepted_witness :
  (exists registry',
      Backend.register Samples.facesOf 300 0 "demo-user" [0; 1; 2]%nat ∅
      = Backend.Ok (1%nat, registry'))
  /\ Backend.register Samples.facesOf 300 0 "demo-user" [0%nat] ∅
     = Backend.Err Backend.ValidationError.
Proof.
  split.
  - destruct (register_fails_iff_none_accepted Samples.facesOf 300 0 "demo-user"
                [0; 1; 2]%nat ∅) as (_ & _ & Hok).
    destruct Hok as (registry' & Hreg & _).
    + apply Exists_cons_tl, Exists_cons_hd. reflexivity.
    + exists registry'. exact Hreg.
  - apply (register_fails_iff_none_accepted Samples.facesOf 300 0 "demo-user"
             [0%nat] ∅).
    repeat constructor.
Defined.

(** ** The frame classifier *)



Section ClassifierFacts.
Import Backend.
Context {Embedding : Type}.
Variable distance : Embedding -> Embedding -> Q.
Variable blend : Embedding -> Embedding -> Embedding.

Abbreviation Detection := (Detection (Embedding := Embedding)).
Abbreviation TrackState := (TrackState (Embedding := Embedding)).

















End ClassifierFacts.



(** The same frame in [detailed] mode, where the match of the running
    embedding is allowed: [owner]. *)
Example detailed_allows_running_match :
  Backend.labelled
    (Backend.classify_frame Samples.distance1 Samples.blend1 Backend.detailed
       Samples.config1 [0 : Q] Samples.driftedTrack
       (Backend.synthetic Samples.box1 (2 : Q))).2 !! 0%nat
  = Some (Samples.box1, Backend.owner).
Proof. reflexivity. Qed.


